(** * Map-layer streaming and object registration in ACarlaGameModeBase

    A shallow embedding of the layer-streaming controller of
    [Carla/Game/CarlaGameModeBase.cpp]: the resolution of a layer bit mask
    into sub-level names ([ConvertMapLayerMaskToMapNames]), the load and
    unload requests ([LoadMapLayer], [UnLoadMapLayer]), the two completion
    callbacks ([OnLoadStreamLevel], [OnUnloadStreamLevel]) and [BeginPlay].

    The controller state is the three fields the callbacks read and write;
    the calls made into the engine and into the other subsystems are
    recorded, in order, as the output of each operation.  Those calls are
    taken not to call back into the controller: streaming completions are
    latent actions and reach [OnLoadStreamLevel] and [OnUnloadStreamLevel]
    as separate events. *)

From Stdlib Require Import ZArith List String Ascii Bool Lia.
Import ListNotations.
Open Scope string_scope.
Open Scope list_scope.
Open Scope Z_scope.

(** ** Machine integers *)

Module Int32.

Definition min_signed : Z := - 2 ^ 31.
Definition max_signed : Z := 2 ^ 31 - 1.

Definition in_range (z : Z) : Prop := min_signed <= z <= max_signed.

(** Two's complement reduction into [int32]. *)
Definition wrap (z : Z) : Z := (z + 2 ^ 31) mod 2 ^ 32 - 2 ^ 31.

(** Reduction into [uint32]. *)
Definition uwrap (z : Z) : Z := z mod 2 ^ 32.

End Int32.

(** ** Declarations the translation unit takes from headers *)

(** [carla/rpc/MapLayer.h] is not part of the sources at hand.  The function
    uses three things from it: the unsigned integer type [crp::MapLayerType]
    (here its width), the enumerator [crp::MapLayer::All], and the function
    [MapLayerToString].  They are parameters of the model. *)
Record MapLayerDecl : Type := {
  MapLayerType_bits : positive;
  MapLayer_All : Z;
  MapLayerToString : Z -> string
}.

(** [static_cast<crp::MapLayerType>(x)] (also the value conversion of
    [static_cast<crp::MapLayer>(x)], whose underlying type it is). *)
Definition to_MapLayerType (d : MapLayerDecl) (x : Z) : Z :=
  x mod 2 ^ Z.pos (MapLayerType_bits d).

(** The counters [PendingLevelsToLoad] and [PendingLevelsToUnLoad] are
    declared in [CarlaGameModeBase.h], which is not part of the sources
    either; the model covers a signed and an unsigned 32-bit declaration. *)
Inductive CounterType : Type := CounterInt | CounterUInt.

(** [Counter--] on a field of that type. *)
Definition decrement (k : CounterType) (c : Z) : Z :=
  match k with
  | CounterInt => Int32.wrap (c - 1)
  | CounterUInt => Int32.uwrap (c - 1)
  end.

(** ** Engine values *)

(** An [FName], identified with the text it was built from. *)
Definition FName : Type := string.

(** What the function reads from [GetWorld()], [GameInstance], [Episode]
    and [Recorder]. *)
Record World : Type := {
  (** [GetWorldAssetPackageFName().ToString()] of every entry of
      [World->GetStreamingLevels()], in order. *)
  StreamingLevels : list string;
  (** [GameInstance->GetCurrentMapLayer()] *)
  CurrentMapLayer : Z;
  (** [Episode->Weather != nullptr] *)
  HasWeather : bool;
  (** [Recorder] is non-null *)
  HasRecorder : bool
}.

(** ** Results of fallible code *)

Inductive Result (A : Type) : Type :=
| Ok (a : A)
| CheckFailed          (* a TArray range check fails *)
| OutOfFuel.           (* a loop did not finish within its iteration bound *)

Arguments Ok {A} a.
Arguments CheckFailed {A}.
Arguments OutOfFuel {A}.

(** [TArray::operator[]]: the index is range-checked. *)
Definition TArray_index {A : Type} (a : list A) (i : Z) : Result A :=
  if (0 <=? i) && (i <? Z.of_nat (List.length a))
  then match nth_error a (Z.to_nat i) with
       | Some x => Ok x
       | None => CheckFailed
       end
  else CheckFailed.

(** [TArray::Num] *)
Definition Num {A : Type} (a : list A) : Z := Z.of_nat (List.length a).

(** The pieces of [s] between occurrences of the delimiter [d]. *)
Fixpoint split_at (d : ascii) (s : string) : list string :=
  match s with
  | EmptyString => [EmptyString]
  | String c s' =>
      if Ascii.eqb c d then EmptyString :: split_at d s'
      else match split_at d s' with
           | [] => [String c EmptyString]
           | p :: ps => String c p :: ps
           end
  end.

(** [FString::ParseIntoArray(Out, Delim, false)] with a one-character
    delimiter: empty pieces are kept, and the empty string has no piece. *)
Definition ParseIntoArray (s : string) (d : ascii) : list string :=
  match s with
  | EmptyString => []
  | _ => split_at d s
  end.

(** ** ConvertMapLayerMaskToMapNames *)

Section Resolver.

Variable layers : MapLayerDecl.

(** [FString::Contains], engine code: [Contains s sub]. *)
Variable Contains : string -> string -> bool.

(** [int32 AllLayersMask = static_cast<crp::MapLayerType>(crp::MapLayer::All);] *)
Definition AllLayersMask : Z :=
  Int32.wrap (to_MapLayerType layers (MapLayer_All layers)).

(** The [while (LayerMask > 0)] loop; [fuel] bounds the iterations. *)
Fixpoint bit_walk (MapLayer : Z) (fuel : nat) (LayerMask : Z)
         (LayersToLoad : list string) : Result (list string) :=
  if LayerMask >? 0 then
    match fuel with
    | O => OutOfFuel
    | S fuel' =>
        let LayerName :=
          MapLayerToString layers (to_MapLayerType layers LayerMask) in
        let included :=
          negb (Z.land (to_MapLayerType layers MapLayer) LayerMask =? 0) in
        let LayersToLoad' :=
          if included then LayersToLoad ++ [LayerName] else LayersToLoad in
        bit_walk MapLayer fuel'
                 (Z.land (Int32.wrap (Z.shiftl LayerMask 1)) AllLayersMask)
                 LayersToLoad'
    end
  else Ok LayersToLoad.

(** An [int32] has 32 bits; the walk never needs more iterations. *)
Definition walk_fuel : nat := 32.

(** "Get all the requested layers" *)
Definition RequestedLayers (MapLayer : Z) : Result (list string) :=
  bit_walk MapLayer walk_fuel 1 [].

(** The inner [for (FString LayerName : LayersToLoad)] loop with its
    [break]. *)
Fixpoint match_layers (SubMapName : string) (LayersToLoad : list string)
         (OutLevelNames : list FName) : list FName :=
  match LayersToLoad with
  | [] => OutLevelNames
  | LayerName :: rest =>
      if Contains SubMapName LayerName
      then OutLevelNames ++ [SubMapName]
      else match_layers SubMapName rest OutLevelNames
  end.

(** The outer [for (ULevelStreaming* Level : Levels)] loop. *)
Fixpoint match_levels (Levels : list string) (LayersToLoad : list string)
         (OutLevelNames : list FName) : Result (list FName) :=
  match Levels with
  | [] => Ok OutLevelNames
  | FullSubMapName :: rest =>
      let StringArray := ParseIntoArray FullSubMapName "/"%char in
      match TArray_index StringArray (Num StringArray - 1) with
      | Ok SubMapName =>
          match_levels rest LayersToLoad
                       (match_layers SubMapName LayersToLoad OutLevelNames)
      | CheckFailed => CheckFailed
      | OutOfFuel => OutOfFuel
      end
  end.

Definition ConvertMapLayerMaskToMapNames (W : World) (MapLayer : Z)
           (OutLevelNames : list FName) : Result (list FName) :=
  match RequestedLayers MapLayer with
  | Ok LayersToLoad =>
      match_levels (StreamingLevels W) LayersToLoad OutLevelNames
  | CheckFailed => CheckFailed
  | OutOfFuel => OutOfFuel
  end.

End Resolver.

(** ** An instance to run the definitions on *)

Module Demo.

(** Three layers on the bits 0 to 2 of a 16-bit mask type whose All
    enumerator has every bit set. *)
Definition layers : MapLayerDecl := {|
  MapLayerType_bits := 16;
  MapLayer_All := 0xFFFF;
  MapLayerToString := fun v =>
    if v =? 0 then "None"
    else if v =? 1 then "Buildings"
    else if v =? 2 then "Decals"
    else if v =? 4 then "Foliage"
    else if v =? 0xFFFF then "All"
    else "Invalid"
|}.

Fixpoint prefixb (p s : string) : bool :=
  match p, s with
  | EmptyString, _ => true
  | String a p', String b s' => Ascii.eqb a b && prefixb p' s'
  | String _ _, EmptyString => false
  end.

(** A substring test (case-sensitive). *)
Fixpoint Contains (s sub : string) : bool :=
  prefixb sub s ||
  match s with
  | EmptyString => false
  | String _ s' => Contains s' sub
  end.

(** A town with three streamable sub-levels, and a world with none. *)
Definition town : World := {|
  StreamingLevels :=
    ["/Game/Carla/Maps/Sublevels/Town01_Decals";
     "/Game/Carla/Maps/Sublevels/Town01_Foliage";
     "/Game/Carla/Maps/Sublevels/Town01_Buildings"];
  CurrentMapLayer := 0xFFFF;
  HasWeather := true;
  HasRecorder := true
|}.


End Demo.

(** ** Controller state and the calls it makes *)

(** The fields of [ACarlaGameModeBase] the streaming code reads and writes. *)
Record GameMode : Type := {
  PendingLevelsToLoad : Z;
  PendingLevelsToUnLoad : Z;
  ReadyToRegisterObjects : bool
}.

Definition set_PendingLevelsToLoad (v : Z) (s : GameMode) : GameMode :=
  {| PendingLevelsToLoad := v;
     PendingLevelsToUnLoad := PendingLevelsToUnLoad s;
     ReadyToRegisterObjects := ReadyToRegisterObjects s |}.

Definition set_PendingLevelsToUnLoad (v : Z) (s : GameMode) : GameMode :=
  {| PendingLevelsToLoad := PendingLevelsToLoad s;
     PendingLevelsToUnLoad := v;
     ReadyToRegisterObjects := ReadyToRegisterObjects s |}.

Definition set_ReadyToRegisterObjects (v : bool) (s : GameMode) : GameMode :=
  {| PendingLevelsToLoad := PendingLevelsToLoad s;
     PendingLevelsToUnLoad := PendingLevelsToUnLoad s;
     ReadyToRegisterObjects := v |}.

(** Calls into the engine and the other subsystems, as the code makes them. *)
Inductive Call : Type :=
| SuperBeginPlay
| GetAllActorsOfClass                       (* UGameplayStatics, all AActor *)
| RegisterObjects                           (* ObjectRegister, on the actors found *)
| TagActorsInLevel                          (* ATagger, whole world *)
| SetSemanticSegmentationEnabled
| SpawnDecalActor
| GetTrafficLightManager
| InitializeTrafficLights
| InitializeAtBeginPlay
| NotifyBeginEpisode
| ApplyWeather
| CheckPlayAfterMapLoaded
| LoadStreamLevel (LevelName : FName) (UUID : Z)
| UnloadStreamLevel (LevelName : FName) (UUID : Z).

(** ** A state, output and failure monad *)

Definition M (A : Type) : Type :=
  GameMode -> Result (A * GameMode * list Call).

Definition ret {A : Type} (a : A) : M A := fun s => Ok (a, s, []).

Definition bind {A B : Type} (m : M A) (f : A -> M B) : M B :=
  fun s =>
    match m s with
    | Ok (a, s1, l1) =>
        match f a s1 with
        | Ok (b, s2, l2) => Ok (b, s2, l1 ++ l2)
        | CheckFailed => CheckFailed
        | OutOfFuel => OutOfFuel
        end
    | CheckFailed => CheckFailed
    | OutOfFuel => OutOfFuel
    end.

Definition get : M GameMode := fun s => Ok (s, s, []).
Definition modify (f : GameMode -> GameMode) : M unit := fun s => Ok (tt, f s, []).
Definition call (c : Call) : M unit := fun s => Ok (tt, s, [c]).

Definition lift {A : Type} (r : Result A) : M A :=
  fun s =>
    match r with
    | Ok a => Ok (a, s, [])
    | CheckFailed => CheckFailed
    | OutOfFuel => OutOfFuel
    end.

Declare Scope gm_scope.
Delimit Scope gm_scope with gm.
Notation "x <- m ;; k" := (bind m (fun x => k))
  (at level 61, m at next level, right associativity) : gm_scope.
Notation "m ;; k" := (bind m (fun _ => k))
  (at level 61, right associativity) : gm_scope.
Open Scope gm_scope.

(** ** The operations *)

Section Controller.

Variable ctype : CounterType.
Variable layers : MapLayerDecl.
Variable Contains : string -> string -> bool.
Variable W : World.

Definition RegisterEnvironmentObjects : M unit :=
  call GetAllActorsOfClass ;;
  call RegisterObjects.

(** The [for (FName& LevelName : LevelsToLoad)] loop of [LoadMapLayer];
    [UUID] is [LatentInfo.UUID]. *)
Fixpoint load_each (LevelsToLoad : list FName) (UUID : Z) : M unit :=
  match LevelsToLoad with
  | [] => ret tt
  | LevelName :: rest =>
      call (LoadStreamLevel LevelName UUID) ;;
      load_each rest (Int32.wrap (UUID + 1))
  end.

Definition LoadMapLayer (MapLayers : Z) : M unit :=
  LevelsToLoad <-
    lift (ConvertMapLayerMaskToMapNames layers Contains W MapLayers []) ;;
  modify (set_PendingLevelsToLoad (Num LevelsToLoad)) ;;
  load_each LevelsToLoad 1.

(** The [for (FName& LevelName : LevelsToUnLoad)] loop of
    [UnLoadMapLayer]. *)
Fixpoint unload_each (LevelsToUnLoad : list FName) (UUID : Z) : M unit :=
  match LevelsToUnLoad with
  | [] => ret tt
  | LevelName :: rest =>
      call (UnloadStreamLevel LevelName UUID) ;;
      unload_each rest (Int32.wrap (UUID + 1))
  end.

Definition UnLoadMapLayer (MapLayers : Z) : M unit :=
  LevelsToUnLoad <-
    lift (ConvertMapLayerMaskToMapNames layers Contains W MapLayers []) ;;
  modify (set_PendingLevelsToUnLoad (Num LevelsToUnLoad)) ;;
  unload_each LevelsToUnLoad 1.

Definition OnLoadStreamLevel : M unit :=
  modify (fun s =>
    set_PendingLevelsToLoad (decrement ctype (PendingLevelsToLoad s)) s) ;;
  s <- get ;;
  if ReadyToRegisterObjects s && (PendingLevelsToLoad s =? 0)
  then RegisterEnvironmentObjects ;; call TagActorsInLevel
  else ret tt.

Definition OnUnloadStreamLevel : M unit :=
  modify (fun s =>
    set_PendingLevelsToUnLoad (decrement ctype (PendingLevelsToUnLoad s)) s) ;;
  s <- get ;;
  if ReadyToRegisterObjects s && (PendingLevelsToUnLoad s =? 0)
  then RegisterEnvironmentObjects
  else ret tt.

Definition BeginPlay : M unit :=
  call SuperBeginPlay ;;
  LoadMapLayer (CurrentMapLayer W) ;;
  modify (set_ReadyToRegisterObjects true) ;;
  call TagActorsInLevel ;;
  call SetSemanticSegmentationEnabled ;;
  call SpawnDecalActor ;;
  call GetTrafficLightManager ;;
  call InitializeTrafficLights ;;
  call InitializeAtBeginPlay ;;
  call NotifyBeginEpisode ;;
  (if HasWeather W then call ApplyWeather else ret tt) ;;
  (if HasRecorder W then call CheckPlayAfterMapLoaded else ret tt) ;;
  s <- get ;;
  if ReadyToRegisterObjects s && (PendingLevelsToLoad s =? 0)
  then RegisterEnvironmentObjects
  else ret tt.

End Controller.

(** Modelled from the spec: the initial values of the three fields are
    given in [CarlaGameModeBase.h], which is not among the sources; the spec
    states them as no load pending, no unload pending, gate not set. *)
Definition initial : GameMode :=
  {| PendingLevelsToLoad := 0;
     PendingLevelsToUnLoad := 0;
     ReadyToRegisterObjects := false |}.

(** The controller after [BeginPlay] with nothing in flight, and with two
    loads in flight. *)
Definition ready_idle : GameMode :=
  {| PendingLevelsToLoad := 0;
     PendingLevelsToUnLoad := 0;
     ReadyToRegisterObjects := true |}.

Definition two_loads_pending : GameMode :=
  {| PendingLevelsToLoad := 2;
     PendingLevelsToUnLoad := 0;
     ReadyToRegisterObjects := true |}.

(** ** Vocabulary of the statements *)

(** The layer-name fragment of bit position [b]. *)
Definition fragment (layers : MapLayerDecl) (b : nat) : string :=
  MapLayerToString layers (2 ^ Z.of_nat b).

(** The number of consecutive set bits of [A] from position [b] on, looking
    at [n] positions at most. *)
Fixpoint run_from (A : Z) (n : nat) (b : nat) : nat :=
  match n with
  | O => O
  | S n' => if Z.testbit A (Z.of_nat b) then S (run_from A n' (S b)) else O
  end.

(** The positions from bit 0 upward for which the running bit value stays
    within [A]; bit 31 is not a positive [int32]. *)
Definition low_run (A : Z) : nat := run_from A 31 0.

(** The short name of a sub-level: the last component of its package path. *)
Definition SubMapName (FullSubMapName : string) : string :=
  last (split_at "/"%char FullSubMapName) "".

(** Every streaming level has a package name (an [FName] never prints as
    the empty text). *)
Definition named_levels (W : World) : Prop :=
  Forall (fun n => n <> "") (StreamingLevels W).

(** A sub-level short name matches when it contains one of the fragments. *)
Definition matches (Contains : string -> string -> bool)
           (LayersToLoad : list string) (name : string) : bool :=
  existsb (Contains name) LayersToLoad.

Definition is_tagging (c : Call) : bool :=
  match c with TagActorsInLevel => true | _ => false end.

Definition is_registration (c : Call) : bool :=
  match c with RegisterObjects => true | _ => false end.

Definition count (p : Call -> bool) (l : list Call) : nat :=
  List.length (filter p l).

(** The calls of a registration-and-tagging pass, as [OnLoadStreamLevel]
    makes them, and of a registration-only pass. *)
Definition registerAndTag : list Call :=
  [GetAllActorsOfClass; RegisterObjects; TagActorsInLevel].

Definition registerOnly : list Call :=
  [GetAllActorsOfClass; RegisterObjects].

(** The streaming calls of a request: one per name, in order, with
    [LatentInfo.UUID] counting up from [UUID]. *)
Fixpoint stream_calls (issue : FName -> Z -> Call) (names : list FName)
         (UUID : Z) : list Call :=
  match names with
  | [] => []
  | LevelName :: rest =>
      issue LevelName UUID :: stream_calls issue rest (Int32.wrap (UUID + 1))
  end.


(** ** The controller under any sequence of operations *)

(** Everything that reaches the controller: the two requests, the two
    completion callbacks and [BeginPlay]. *)
Inductive Op : Type :=
| RequestLoad (MapLayers : Z)
| RequestUnload (MapLayers : Z)
| LoadDone
| UnloadDone
| Begin.

Definition perform (ctype : CounterType) (layers : MapLayerDecl)
           (Contains : string -> string -> bool) (W : World)
           (o : Op) : M unit :=
  match o with
  | RequestLoad MapLayers => LoadMapLayer layers Contains W MapLayers
  | RequestUnload MapLayers => UnLoadMapLayer layers Contains W MapLayers
  | LoadDone => OnLoadStreamLevel ctype
  | UnloadDone => OnUnloadStreamLevel ctype
  | Begin => BeginPlay layers Contains W
  end.

Fixpoint perform_all (ctype : CounterType) (layers : MapLayerDecl)
         (Contains : string -> string -> bool) (W : World)
         (os : list Op) : M unit :=
  match os with
  | [] => ret tt
  | o :: os' =>
      perform ctype layers Contains W o ;;
      perform_all ctype layers Contains W os'
  end.

Definition is_streaming (c : Call) : bool :=
  match c with
  | LoadStreamLevel _ _ | UnloadStreamLevel _ _ => true
  | _ => false
  end.

Definition is_actor_scan (c : Call) : bool :=
  match c with GetAllActorsOfClass => true | _ => false end.

Definition unload_completions (os : list Op) : nat :=
  List.length (filter (fun o => match o with UnloadDone => true | _ => false end) os).

Definition is_unload_request (o : Op) : bool :=
  match o with RequestUnload _ => true | _ => false end.

Definition is_Begin (o : Op) : bool :=
  match o with Begin => true | _ => false end.






(** What a counter field holds when its count, taken as an integer, is [v]
    (negative once more completions have arrived than were counted). *)
Definition field_of (ctype : CounterType) (v : Z) : Z :=
  match ctype with
  | CounterInt => v
  | CounterUInt => v mod 2 ^ 32
  end.

(** The identifier of a streaming call. *)
Definition UUID_of (c : Call) : option Z :=
  match c with
  | LoadStreamLevel _ UUID | UnloadStreamLevel _ UUID => Some UUID
  | _ => None
  end.

(** An unload batch pending in state [s1] settles along the operations
    [os]: [os] splits at the unload completion that takes the pending-unload
    counter from 1 to 0, which makes exactly the registration-only calls;
    every unload completion before it finds the counter above 1 and makes
    no call; afterwards the counter stays at 0. *)
Definition unload_settles_once (ctype : CounterType) (layers : MapLayerDecl)
           (Contains : string -> string -> bool) (W : World)
           (os : list Op) (s1 : GameMode) : Prop :=
  exists (before after : list Op) (s2 s3 s4 : GameMode)
         (log_before log_after : list Call),
    os = before ++ UnloadDone :: after /\
    unload_completions after = 0%nat /\
    perform_all ctype layers Contains W before s1 = Ok (tt, s2, log_before) /\
    (forall p q s l,
        before = p ++ UnloadDone :: q ->
        perform_all ctype layers Contains W p s1 = Ok (tt, s, l) ->
        1 < PendingLevelsToUnLoad s /\
        OnUnloadStreamLevel ctype s
        = Ok (tt, set_PendingLevelsToUnLoad (PendingLevelsToUnLoad s - 1) s,
              [])) /\
    PendingLevelsToUnLoad s2 = 1 /\
    OnUnloadStreamLevel ctype s2 = Ok (tt, s3, registerOnly) /\
    PendingLevelsToUnLoad s3 = 0 /\
    perform_all ctype layers Contains W after s3 = Ok (tt, s4, log_after) /\
    PendingLevelsToUnLoad s4 = 0 /\
    perform_all ctype layers Contains W os s1
    = Ok (tt, s4, log_before ++ registerOnly ++ log_after).

(** ** Text *)

Fixpoint occurs (c : ascii) (s : string) : bool :=
  match s with
  | EmptyString => false
  | String a s' => Ascii.eqb a c || occurs c s'
  end.

(** The pieces put together again, with the delimiter between them. *)
Fixpoint join (d : ascii) (pieces : list string) : string :=
  match pieces with
  | [] => EmptyString
  | p :: rest =>
      match rest with
      | [] => p
      | _ :: _ => String.append p (String d (join d rest))
      end
  end.

(** ** Levels and their actors *)

(** An [AActor*], by identity. *)
Definition AActor : Type := Z.

(** A loaded [ULevel], as far as the code looks at it. *)
Record ULevel : Type := {
  Actors : list AActor
}.

(** A [ULevelStreaming]: its package name and [GetLoadedLevel()], which is
    null while the level is not loaded. *)
Record ULevelStreaming : Type := {
  WorldAssetPackageFName : string;
  LoadedLevel : option ULevel
}.

(** The log lines the level queries and the factory loop write. *)
Inductive LogLine : Type :=
| NotLoaded (LevelName : string)
    (* Warning: "%s has not been loaded" *)
| ActorLevel (FullSubMapName InLevelName : string)
    (* Warning: "GetAllActorsOfLevel ActorLevel %s - InLevel %s" *)
| FailedToSpawn.
    (* Error: "Failed to spawn actor spawner" *)

Section LevelQueries.

Variable Contains : string -> string -> bool.

(** The loop of [GetULevelFromName] with its [break]; the result is
    [OutLevel] and the lines logged. *)
Fixpoint GetULevelFromName (Levels : list ULevelStreaming)
         (LevelName : string) : option ULevel * list LogLine :=
  match Levels with
  | [] => (None, [])
  | Level :: rest =>
      let FullSubMapName := WorldAssetPackageFName Level in
      if Contains FullSubMapName LevelName
      then
        let OutLevel := LoadedLevel Level in
        (OutLevel,
         match OutLevel with
         | None => [NotLoaded LevelName]
         | Some _ => []
         end)
      else GetULevelFromName rest LevelName
  end.

(** The loop of [GetAllActorsOfLevel] over the streaming levels.  The
    result is [None] when [Level->Actors] is reached with a null [Level];
    the lines logged until then are kept. *)
Fixpoint collect_actors (StreamingLevels : list ULevelStreaming)
         (InLevelName : string) (OutActors : list AActor)
  : list LogLine * option (list AActor) :=
  match StreamingLevels with
  | [] => ([], Some OutActors)
  | StreamingLevel :: rest =>
      let FullSubMapName := WorldAssetPackageFName StreamingLevel in
      let line := ActorLevel FullSubMapName InLevelName in
      if Contains FullSubMapName InLevelName
      then
        match LoadedLevel StreamingLevel with
        | None => ([line], None)
        | Some Level =>
            let (log, out) :=
              collect_actors rest InLevelName (OutActors ++ Actors Level) in
            (line :: log, out)
        end
      else
        let (log, out) := collect_actors rest InLevelName OutActors in
        (line :: log, out)
  end.

Definition GetAllActorsOfLevel (StreamingLevels : list ULevelStreaming)
           (InLevelName : string) : list LogLine * option (list AActor) :=
  collect_actors StreamingLevels InLevelName [].

(** The streaming levels named by the text. *)
Definition named_by (InLevelName : string) (Level : ULevelStreaming) : bool :=
  Contains (WorldAssetPackageFName Level) InLevelName.

Definition actors_of (Level : ULevelStreaming) : list AActor :=
  match LoadedLevel Level with
  | Some L => Actors L
  | None => []
  end.

Definition is_loaded (Level : ULevelStreaming) : bool :=
  match LoadedLevel Level with Some _ => true | None => false end.

(** Every streaming level named by the text is loaded. *)
Definition all_named_loaded (InLevelName : string)
           (Levels : list ULevelStreaming) : bool :=
  forallb (fun Level => negb (named_by InLevelName Level) || is_loaded Level)
          Levels.

End LevelQueries.

(** Three streaming levels to run the queries on: the second is not
    loaded. *)
Definition demo_levels : list ULevelStreaming :=
  [ {| WorldAssetPackageFName := "/Game/Carla/Maps/Sublevels/Town01_Decals";
       LoadedLevel := Some {| Actors := [11; 12] |} |};
    {| WorldAssetPackageFName := "/Game/Carla/Maps/Sublevels/Town01_Foliage";
       LoadedLevel := None |};
    {| WorldAssetPackageFName := "/Game/Carla/Maps/Sublevels/Town01_Decals2";
       LoadedLevel := Some {| Actors := [31] |} |} ].


(** ** Actor factories *)

Section Factories.

(** A [TSubclassOf<ACarlaActorFactory>] that is not null, and a spawned
    [ACarlaActorFactory]. *)
Variable FactoryClass : Type.
Variable Factory : Type.

(** [World->SpawnActor<ACarlaActorFactory>(FactoryClass)] for the entry at a
    position of [ActorFactories]: the factory, or null. *)
Variable SpawnActor : nat -> FactoryClass -> option Factory.

(** What the loop does besides growing [ActorFactoryInstances]. *)
Inductive FactoryEffect : Type :=
| RegisterActorFactory (f : Factory)
| LogError (line : LogLine).

(** The loop of [SpawnActorFactories] from position [i] on; the result is
    [ActorFactoryInstances] and the effects in order. *)
Fixpoint spawn_each (i : nat) (ActorFactories : list (option FactoryClass))
         (ActorFactoryInstances : list Factory)
  : list Factory * list FactoryEffect :=
  match ActorFactories with
  | [] => (ActorFactoryInstances, [])
  | entry :: rest =>
      match entry with
      | None => spawn_each (S i) rest ActorFactoryInstances
      | Some Class =>
          match SpawnActor i Class with
          | Some f =>
              let (instances, effects) :=
                spawn_each (S i) rest (ActorFactoryInstances ++ [f]) in
              (instances, RegisterActorFactory f :: effects)
          | None =>
              let (instances, effects) :=
                spawn_each (S i) rest ActorFactoryInstances in
              (instances, LogError FailedToSpawn :: effects)
          end
      end
  end.

Definition SpawnActorFactories (ActorFactories : list (option FactoryClass))
           (ActorFactoryInstances : list Factory)
  : list Factory * list FactoryEffect :=
  spawn_each 0 ActorFactories ActorFactoryInstances.

Definition registered (e : FactoryEffect) : list Factory :=
  match e with
  | RegisterActorFactory f => [f]
  | LogError _ => []
  end.

Definition is_error (e : FactoryEffect) : bool :=
  match e with
  | LogError _ => true
  | RegisterActorFactory _ => false
  end.

Definition is_null_class (entry : option FactoryClass) : bool :=
  match entry with None => true | Some _ => false end.

End Factories.

Arguments RegisterActorFactory {Factory} f.
Arguments LogError {Factory} line.
Arguments registered {Factory} e.
Arguments is_error {Factory} e.
Arguments is_null_class {FactoryClass} entry.
Arguments spawn_each {FactoryClass Factory} SpawnActor i ActorFactories
  ActorFactoryInstances.
Arguments SpawnActorFactories {FactoryClass Factory} SpawnActor ActorFactories
  ActorFactoryInstances.

(** ** Signal references *)

Section SignalReferences.

(** A waypoint of [Map->GenerateWaypointsOnRoadEntries()] and a
    [const cre::RoadInfoSignal*]. *)
Variable Waypoint : Type.
Variable Reference : Type.

Variable road_id : Waypoint -> Z.

(** [Map->GetLane(waypoint).GetRoad()->GetInfos<cre::RoadInfoSignal>()] *)
Variable GetInfos : Waypoint -> list Reference.

(** The waypoint loop of [DebugShowSignals]; [ExploredRoads] is the set of
    road ids, kept as the list of its members. *)
Fixpoint explore (waypoints : list Waypoint) (ExploredRoads : list Z)
         (References : list Reference) : list Z * list Reference :=
  match waypoints with
  | [] => (ExploredRoads, References)
  | waypoint :: rest =>
      if existsb (Z.eqb (road_id waypoint)) ExploredRoads
      then explore rest ExploredRoads References
      else explore rest (road_id waypoint :: ExploredRoads)
                   (References ++ GetInfos waypoint)
  end.

(** The waypoints whose road has not been seen before them. *)
Fixpoint first_on_road (waypoints : list Waypoint) (seen : list Z)
  : list Waypoint :=
  match waypoints with
  | [] => []
  | w :: rest =>
      if existsb (Z.eqb (road_id w)) seen
      then first_on_road rest seen
      else w :: first_on_road rest (road_id w :: seen)
  end.

End SignalReferences.

Arguments explore {Waypoint Reference} road_id GetInfos waypoints
  ExploredRoads References.
Arguments first_on_road {Waypoint} road_id waypoints seen.

Lemma Ok_inj {T : Type} (x y : T) : Ok x = Ok y -> x = y.
Proof. congruence. Qed.

Lemma Ok_run_inj (s s' : GameMode) (l l' : list Call) :
  Ok (tt, s, l) = Ok (tt, s', l') -> s = s' /\ l = l'.
Proof. intros H. split; congruence. Qed.

(** ** Bits *)

Lemma land_pow2 (n A : Z) :
  0 <= n -> Z.land (2 ^ n) A = if Z.testbit A n then 2 ^ n else 0.
Proof.
  intros Hn. apply Z.bits_inj'. intros m Hm.
  rewrite Z.land_spec, Z.pow2_bits_eqb by lia.
  destruct (Z.eqb_spec n m) as [->|Hne].
  - destruct (Z.testbit A m) eqn:E; simpl.
    + rewrite Z.pow2_bits_true; auto.
    + rewrite Z.bits_0; auto.
  - simpl. destruct (Z.testbit A n).
    + rewrite Z.pow2_bits_false; auto.
    + rewrite Z.bits_0; auto.
Qed.

Lemma land_min_signed (A : Z) :
  Int32.in_range A -> Z.land (- 2 ^ 31) A <= 0.
Proof.
  unfold Int32.in_range, Int32.min_signed, Int32.max_signed. intros H.
  replace (- 2 ^ 31) with (Z.lnot (Z.ones 31)) by reflexivity.
  rewrite Z.land_comm.
  change (Z.land A (Z.lnot (Z.ones 31))) with (Z.ldiff A (Z.ones 31)).
  rewrite Z.ldiff_ones_r by lia.
  rewrite Z.shiftr_div_pow2, Z.shiftl_mul_pow2 by lia.
  assert (A / 2 ^ 31 <= 0).
  { apply Z.lt_succ_r. apply Z.div_lt_upper_bound; lia. }
  nia.
Qed.

Lemma wrap_in_range (z : Z) : Int32.in_range (Int32.wrap z).
Proof.
  unfold Int32.in_range, Int32.wrap, Int32.min_signed, Int32.max_signed.
  pose proof (Z.mod_pos_bound (z + 2 ^ 31) (2 ^ 32)). lia.
Qed.

Lemma wrap_id (z : Z) : Int32.in_range z -> Int32.wrap z = z.
Proof.
  unfold Int32.in_range, Int32.wrap, Int32.min_signed, Int32.max_signed.
  intros H. rewrite Z.mod_small; lia.
Qed.

Lemma wrap_testbit (x b : Z) :
  0 <= b < 32 -> Z.testbit (Int32.wrap x) b = Z.testbit x b.
Proof.
  intros Hb. unfold Int32.wrap.
  rewrite <- (Z.mod_pow2_bits_low _ 32 b) by lia.
  rewrite <- (Z.mod_pow2_bits_low x 32 b) by lia.
  f_equal.
  rewrite Zminus_mod, Z.mod_mod by lia.
  rewrite <- Zminus_mod. f_equal. lia.
Qed.

Lemma decrement_pred (k : CounterType) (c : Z) :
  1 <= c <= 2 ^ 31 -> decrement k c = c - 1.
Proof.
  intros H. destruct k; simpl.
  - apply wrap_id. unfold Int32.in_range, Int32.min_signed, Int32.max_signed. lia.
  - unfold Int32.uwrap. apply Z.mod_small. lia.
Qed.

Lemma decrement_zero (k : CounterType) :
  decrement k 0 = match k with CounterInt => -1 | CounterUInt => 4294967295 end.
Proof. destruct k; reflexivity. Qed.

(** ** The bit walk *)

Section WalkFacts.

Variable layers : MapLayerDecl.

Let A : Z := AllLayersMask layers.
Let bits : Z := Z.pos (MapLayerType_bits layers).

Lemma AllLayersMask_in_range : Int32.in_range (AllLayersMask layers).
Proof. apply wrap_in_range. Qed.

(** A bit of [AllLayersMask] below the sign bit is a bit of
    [crp::MapLayerType]. *)
Lemma AllLayersMask_bit (b : Z) :
  0 <= b < 32 -> Z.testbit A b = true -> b < bits.
Proof.
  intros Hb Ht. unfold A, AllLayersMask, to_MapLayerType in Ht.
  rewrite wrap_testbit in Ht by lia.
  destruct (Z.lt_ge_cases b bits) as [|Hge]; [assumption|].
  rewrite Z.mod_pow2_bits_high in Ht by (unfold bits in Hge; lia).
  discriminate.
Qed.

Lemma to_MapLayerType_pow2 (b : Z) :
  0 <= b < bits -> to_MapLayerType layers (2 ^ b) = 2 ^ b.
Proof.
  intros Hb. unfold to_MapLayerType. apply Z.mod_small. split.
  - apply Z.pow_nonneg. lia.
  - apply Z.pow_lt_mono_r; unfold bits in Hb; lia.
Qed.

Lemma included_bit (MapLayer b : Z) :
  0 <= b < bits ->
  negb (Z.land (to_MapLayerType layers MapLayer) (2 ^ b) =? 0)
  = Z.testbit MapLayer b.
Proof.
  intros Hb. rewrite Z.land_comm, land_pow2 by lia.
  unfold to_MapLayerType. rewrite Z.mod_pow2_bits_low by (unfold bits in Hb; lia).
  assert (0 < 2 ^ b) by (apply Z.pow_pos_nonneg; lia).
  destruct (Z.testbit MapLayer b); simpl.
  - destruct (Z.eqb_spec (2 ^ b) 0); [lia | reflexivity].
  - reflexivity.
Qed.

Lemma next_mask (b : Z) :
  0 <= b < 30 ->
  Z.land (Int32.wrap (Z.shiftl (2 ^ b) 1)) A
  = if Z.testbit A (b + 1) then 2 ^ (b + 1) else 0.
Proof.
  intros Hb. rewrite Z.shiftl_mul_pow2 by lia.
  replace (2 ^ b * 2 ^ 1) with (2 ^ (b + 1)) by (rewrite Z.pow_add_r; lia).
  rewrite wrap_id.
  - apply land_pow2. lia.
  - unfold Int32.in_range, Int32.min_signed, Int32.max_signed.
    assert (0 < 2 ^ (b + 1)) by (apply Z.pow_pos_nonneg; lia).
    assert (2 ^ (b + 1) <= 2 ^ 30) by (apply Z.pow_le_mono_r; lia).
    lia.
Qed.

Lemma next_mask_top :
  Z.land (Int32.wrap (Z.shiftl (2 ^ 30) 1)) A <= 0.
Proof.
  change (Int32.wrap (Z.shiftl (2 ^ 30) 1)) with (- 2 ^ 31).
  apply land_min_signed, AllLayersMask_in_range.
Qed.

Lemma bit_walk_done (MapLayer : Z) (fuel : nat) (LayerMask : Z)
      (acc : list string) :
  LayerMask <= 0 -> bit_walk layers MapLayer fuel LayerMask acc = Ok acc.
Proof.
  intros H. destruct fuel; simpl;
    destruct (Z.gtb_spec LayerMask 0); solve [lia | reflexivity].
Qed.

(** One iteration at a position of the walk. *)
Lemma bit_walk_step (MapLayer : Z) (fuel : nat) (b : nat)
      (acc : list string) :
  Z.of_nat b < bits -> (b <= 30)%nat ->
  bit_walk layers MapLayer (S fuel) (2 ^ Z.of_nat b) acc
  = bit_walk layers MapLayer fuel
      (Z.land (Int32.wrap (Z.shiftl (2 ^ Z.of_nat b) 1)) A)
      (acc ++ if Z.testbit MapLayer (Z.of_nat b) then [fragment layers b] else []).
Proof.
  intros Hb Hle.
  assert (Hpos : 0 < 2 ^ Z.of_nat b) by (apply Z.pow_pos_nonneg; lia).
  cbn [bit_walk].
  destruct (Z.gtb_spec (2 ^ Z.of_nat b) 0) as [_|]; [|lia].
  rewrite included_bit, to_MapLayerType_pow2 by lia.
  fold A. unfold fragment.
  destruct (Z.testbit MapLayer (Z.of_nat b)).
  - reflexivity.
  - rewrite app_nil_r. reflexivity.
Qed.

(** The walk from position [b]: it visits [b], then the positions above
    it while they are bits of [AllLayersMask], up to position 30. *)
Lemma bit_walk_from (MapLayer : Z) :
  forall (n b fuel : nat) (acc : list string),
    (b + n = 30)%nat -> (n < fuel)%nat -> Z.of_nat b < bits ->
    bit_walk layers MapLayer fuel (2 ^ Z.of_nat b) acc
    = Ok (acc ++ map (fragment layers)
                     (filter (fun i => Z.testbit MapLayer (Z.of_nat i))
                             (seq b (S (run_from A n (S b)))))).
Proof.
  induction n as [|n IH]; intros b fuel acc Hbn Hfuel Hbits.
  - destruct fuel as [|fuel]; [lia|].
    rewrite bit_walk_step by lia.
    assert (b = 30%nat) by lia. subst b.
    rewrite bit_walk_done by apply next_mask_top.
    cbn [run_from seq filter].
    destruct (Z.testbit MapLayer (Z.of_nat 30)); reflexivity.
  - destruct fuel as [|fuel]; [lia|].
    rewrite bit_walk_step by lia.
    rewrite next_mask by lia.
    cbn [run_from].
    replace (Z.of_nat b + 1) with (Z.of_nat (S b)) by lia.
    destruct (Z.testbit A (Z.of_nat (S b))) eqn:Hnext.
    + rewrite IH; try lia.
      * rewrite <- app_assoc. f_equal. f_equal.
        change (seq b (S (S (run_from A n (S (S b))))))
          with (b :: seq (S b) (S (run_from A n (S (S b))))).
        cbn [filter].
        destruct (Z.testbit MapLayer (Z.of_nat b)); reflexivity.
      * apply AllLayersMask_bit; [lia | exact Hnext].
    + rewrite bit_walk_done by lia.
      cbn [seq filter].
      destruct (Z.testbit MapLayer (Z.of_nat b)); reflexivity.
Qed.

(** The walk terminates within its bound, on every mask. *)
Lemma RequestedLayers_total (MapLayer : Z) :
  RequestedLayers layers MapLayer
  = Ok (map (fragment layers)
            (filter (fun i => Z.testbit MapLayer (Z.of_nat i))
                    (seq 0 (S (run_from A 30 1))))).
Proof.
  unfold RequestedLayers, walk_fuel.
  change 1 with (2 ^ Z.of_nat 0).
  rewrite (bit_walk_from MapLayer 30 0);
    first [reflexivity | lia | unfold bits; lia].
Qed.

Lemma RequestedLayers_zero : RequestedLayers layers 0 = Ok [].
Proof.
  rewrite RequestedLayers_total. f_equal.
  generalize (seq 0 (S (run_from A 30 1))) as l.
  induction l as [|i l IH]; cbn [filter map]; [reflexivity|].
  rewrite Z.bits_0. exact IH.
Qed.

(** More fuel changes nothing. *)
Lemma bit_walk_fuel (MapLayer : Z) (fuel : nat) :
  (walk_fuel <= fuel)%nat ->
  bit_walk layers MapLayer fuel 1 [] = RequestedLayers layers MapLayer.
Proof.
  intros H. rewrite RequestedLayers_total. unfold walk_fuel in H.
  change 1 with (2 ^ Z.of_nat 0).
  rewrite (bit_walk_from MapLayer 30 0);
    first [reflexivity | lia | unfold bits; lia].
Qed.

Lemma run_from_set (n : nat) :
  forall b i, (b <= i < b + run_from A n b)%nat ->
              Z.testbit A (Z.of_nat i) = true.
Proof.
  induction n as [|n IH]; intros b i Hi; cbn [run_from] in Hi; [lia|].
  destruct (Z.testbit A (Z.of_nat b)) eqn:Hb; [|lia].
  destruct (Nat.eq_dec i b) as [->|Hne]; [assumption|].
  apply (IH (S b)). lia.
Qed.

Lemma run_from_stop (n : nat) :
  forall b, (run_from A n b < n)%nat ->
            Z.testbit A (Z.of_nat (b + run_from A n b)) = false.
Proof.
  induction n as [|n IH]; intros b Hlt; cbn [run_from] in *; [lia|].
  destruct (Z.testbit A (Z.of_nat b)) eqn:Hb.
  - replace (b + S (run_from A n (S b)))%nat
      with (S b + run_from A n (S b))%nat by lia.
    apply IH. lia.
  - rewrite Nat.add_0_r. assumption.
Qed.

End WalkFacts.

(** ** The name-matching pass *)

Section MatchFacts.

Variable layers : MapLayerDecl.
Variable Contains : string -> string -> bool.

Lemma match_layers_spec (name : string) (LayersToLoad : list string)
      (Out : list FName) :
  match_layers Contains name LayersToLoad Out
  = if matches Contains LayersToLoad name then Out ++ [name] else Out.
Proof.
  unfold matches.
  induction LayersToLoad as [|LayerName rest IH]; cbn [match_layers existsb].
  - reflexivity.
  - destruct (Contains name LayerName); [reflexivity | exact IH].
Qed.

Lemma split_at_cons (d : ascii) (s : string) :
  exists p ps, split_at d s = p :: ps.
Proof.
  induction s as [|c s [p [ps IH]]]; cbn [split_at].
  - eauto.
  - destruct (Ascii.eqb c d); [eauto|]. rewrite IH. eauto.
Qed.

Lemma index_last {T : Type} (d : T) (a : list T) :
  a <> [] -> TArray_index a (Num a - 1) = Ok (last a d).
Proof.
  intros Hne. unfold TArray_index, Num.
  assert (Hlen : (0 < List.length a)%nat) by (destruct a; [congruence | simpl; lia]).
  replace ((0 <=? Z.of_nat (List.length a) - 1)
           && (Z.of_nat (List.length a) - 1 <? Z.of_nat (List.length a)))
    with true
    by (symmetry; apply andb_true_iff; split;
        [apply Z.leb_le | apply Z.ltb_lt]; lia).
  replace (Z.to_nat (Z.of_nat (List.length a) - 1))
    with (List.length a - 1)%nat by lia.
  clear Hlen. induction a as [|x a IH]; [congruence|].
  destruct a as [|y a]; [reflexivity|].
  replace (List.length (x :: y :: a) - 1)%nat
    with (S (List.length (y :: a) - 1)) by (simpl; lia).
  cbn [nth_error]. rewrite IH by congruence. reflexivity.
Qed.

Lemma SubMapName_index (full : string) :
  full <> "" ->
  TArray_index (ParseIntoArray full "/"%char)
               (Num (ParseIntoArray full "/"%char) - 1)
  = Ok (SubMapName full).
Proof.
  intros Hne. unfold SubMapName.
  assert (HP : ParseIntoArray full "/"%char = split_at "/"%char full)
    by (destruct full; [congruence | reflexivity]).
  rewrite HP. apply index_last.
  destruct (split_at_cons "/"%char full) as [p [ps ->]]. congruence.
Qed.

Lemma empty_name_fails : 
  TArray_index (ParseIntoArray "" "/"%char)
               (Num (ParseIntoArray "" "/"%char) - 1)
  = @CheckFailed string.
Proof. reflexivity. Qed.

(** A level without a package name stops the function at the range check,
    whatever the mask. *)
Example unnamed_level_fails :
  ConvertMapLayerMaskToMapNames Demo.layers Demo.Contains
    {| StreamingLevels := ["/Game/Carla/Maps/Sublevels/Town01_Decals"; ""];
       CurrentMapLayer := 0; HasWeather := false; HasRecorder := false |}
    2 []
  = CheckFailed.
Proof. reflexivity. Qed.

Lemma match_levels_spec (LayersToLoad : list string) :
  forall (Levels : list string) (Out : list FName),
    Forall (fun n => n <> "") Levels ->
    match_levels Contains Levels LayersToLoad Out
    = Ok (Out ++ filter (matches Contains LayersToLoad)
                        (map SubMapName Levels)).
Proof.
  induction Levels as [|full rest IH]; intros Out Hok; cbn [match_levels].
  - rewrite app_nil_r. reflexivity.
  - inversion Hok as [|? ? Hfull Hrest]; subst.
    rewrite SubMapName_index by assumption.
    rewrite IH by assumption. rewrite match_layers_spec.
    cbn [map filter].
    destruct (matches Contains LayersToLoad (SubMapName full)).
    + rewrite <- app_assoc. reflexivity.
    + reflexivity.
Qed.

Lemma Convert_spec (W : World) (MapLayer : Z) (Out : list FName) :
  named_levels W ->
  exists LayersToLoad,
    RequestedLayers layers MapLayer = Ok LayersToLoad /\
    ConvertMapLayerMaskToMapNames layers Contains W MapLayer Out
    = Ok (Out ++ filter (matches Contains LayersToLoad)
                        (map SubMapName (StreamingLevels W))).
Proof.
  intros Hok. unfold ConvertMapLayerMaskToMapNames.
  rewrite RequestedLayers_total. eexists. split; [reflexivity|].
  apply match_levels_spec. exact Hok.
Qed.

(** The resolved list of a mask: what the function yields on an empty
    output array. *)
Lemma Convert_append (W : World) (MapLayer : Z) (Out : list FName) :
  named_levels W ->
  exists resolved,
    ConvertMapLayerMaskToMapNames layers Contains W MapLayer [] = Ok resolved /\
    ConvertMapLayerMaskToMapNames layers Contains W MapLayer Out
    = Ok (Out ++ resolved).
Proof.
  intros Hok.
  destruct (Convert_spec W MapLayer [] Hok) as [L1 [HL1 H1]].
  destruct (Convert_spec W MapLayer Out Hok) as [L2 [HL2 H2]].
  assert (L1 = L2) by congruence. subst L2.
  eexists. split; [exact H1 | exact H2].
Qed.

Lemma filter_all {T : Type} (p : T -> bool) (l : list T) :
  Forall (fun x => p x = true) l -> filter p l = l.
Proof.
  induction 1 as [|x l Hx _ IH]; cbn [filter]; [reflexivity|].
  rewrite Hx, IH. reflexivity.
Qed.

Lemma run_from_ones (n : nat) :
  forall m b, run_from (Z.ones (Z.of_nat n)) m b = Nat.min m (n - b).
Proof.
  induction m as [|m IH]; intros b; cbn [run_from]; [reflexivity|].
  destruct (Nat.lt_ge_cases b n) as [Hlt|Hge].
  - rewrite Z.ones_spec_low by lia. rewrite IH. lia.
  - rewrite Z.ones_spec_high by lia. lia.
Qed.

End MatchFacts.

(** ** Resolution of a layer mask *)

(** C5.  Provided bit 0 belongs to the All mask, the bit walk of
    [ConvertMapLayerMaskToMapNames] ends on every layer mask and collects
    exactly the layer-name fragments of the positions set in both the mask
    and the All mask, from the lowest bit upward, over the positions for
    which the running bit value stays within the All mask: every visited
    position is a bit of All, and the walk stops at the first position that
    is not (or at the sign bit).  Bits of the mask outside All contribute
    nothing: the mask and its intersection with All collect the same
    fragments, and no mask is an error. *)
Theorem C5_bit_walk_collects (layers : MapLayerDecl) (MapLayer : Z) :
  Z.odd (AllLayersMask layers) = true ->
  RequestedLayers layers MapLayer
  = Ok (map (fragment layers)
            (filter (fun b => Z.testbit MapLayer (Z.of_nat b)
                              && Z.testbit (AllLayersMask layers) (Z.of_nat b))
                    (seq 0 (low_run (AllLayersMask layers)))))
  /\ (forall b, (b < low_run (AllLayersMask layers))%nat ->
                Z.testbit (AllLayersMask layers) (Z.of_nat b) = true)
  /\ ((low_run (AllLayersMask layers) < 31)%nat ->
      Z.testbit (AllLayersMask layers)
                (Z.of_nat (low_run (AllLayersMask layers))) = false)
  /\ RequestedLayers layers (Z.land MapLayer (AllLayersMask layers))
     = RequestedLayers layers MapLayer.
Proof.
  intros Hodd. rewrite <- Z.bit0_odd in Hodd.
  set (A := AllLayersMask layers) in *.
  assert (Hrun : low_run A = S (run_from A 30 1)).
  { unfold low_run. cbn [run_from]. change (Z.of_nat 0) with 0.
    rewrite Hodd. reflexivity. }
  assert (Hin : forall b, (b < low_run A)%nat -> Z.testbit A (Z.of_nat b) = true).
  { intros b Hb. apply (run_from_set layers 31 0 b). fold A.
    unfold low_run in Hb. lia. }
  repeat split.
  - rewrite RequestedLayers_total. fold A. rewrite <- Hrun.
    f_equal. f_equal. apply filter_ext_in. intros b Hb.
    apply in_seq in Hb. rewrite Hin by lia. rewrite andb_true_r. reflexivity.
  - exact Hin.
  - intros Hlt. apply (run_from_stop layers 31 0). fold A.
    unfold low_run in Hlt. exact Hlt.
  - rewrite !RequestedLayers_total. fold A. rewrite <- Hrun.
    f_equal. f_equal. apply filter_ext_in. intros b Hb.
    apply in_seq in Hb. rewrite Z.land_spec, Hin by lia.
    apply andb_true_r.
Qed.

Lemma C5_bit_walk_collects_witness :
  RequestedLayers Demo.layers 0x10006 = Ok ["Decals"; "Foliage"].
Proof.
  destruct (C5_bit_walk_collects Demo.layers 0x10006 eq_refl) as [H _].
  exact H.
Defined.

(** C6.  With the fragments the bit walk collected, the name-matching pass
    appends to the output the short name (last path component) of exactly
    those known sub-levels whose short name contains at least one collected
    fragment, each one once however many fragments it contains, in the
    order of the known sub-level list; sub-levels matching no fragment are
    left out. *)
Theorem C6_name_matching_pass (layers : MapLayerDecl)
        (Contains : string -> string -> bool) (W : World)
        (MapLayer : Z) (Out : list FName) :
  named_levels W ->
  exists LayersToLoad,
    RequestedLayers layers MapLayer = Ok LayersToLoad /\
    ConvertMapLayerMaskToMapNames layers Contains W MapLayer Out
    = Ok (Out ++ filter (matches Contains LayersToLoad)
                        (map SubMapName (StreamingLevels W))) /\
    (forall name acc,
        match_layers Contains name LayersToLoad acc
        = if matches Contains LayersToLoad name then acc ++ [name] else acc).
Proof.
  intros Hok.
  destruct (Convert_spec layers Contains W MapLayer Out Hok) as [L [HL H]].
  exists L. repeat split; try assumption.
  intros name acc. apply match_layers_spec.
Qed.

Lemma Demo_town_named : named_levels Demo.town.
Proof. repeat constructor; discriminate. Qed.

Lemma C6_name_matching_pass_witness :
  ConvertMapLayerMaskToMapNames Demo.layers Demo.Contains Demo.town 6 []
  = Ok ["Town01_Decals"; "Town01_Foliage"].
Proof.
  destruct (C6_name_matching_pass Demo.layers Demo.Contains Demo.town 6 []
              Demo_town_named) as [L [HL [H _]]].
  vm_compute in HL. apply Ok_inj in HL. subst L. exact H.
Defined.

(** C7.  The mask 0 resolves to the empty list.  When the All mask is the
    union of the layer bits 0 .. n-1 and every known sub-level has a short
    name containing the fragment of at least one of those layers, the All
    mask resolves to the whole known sub-level list, in order. *)
Theorem C7_resolve_none_and_all (layers : MapLayerDecl)
        (Contains : string -> string -> bool) (W : World) :
  named_levels W ->
  ConvertMapLayerMaskToMapNames layers Contains W 0 [] = Ok []
  /\ forall n : nat,
      AllLayersMask layers = Z.ones (Z.of_nat n) ->
      Forall (fun full =>
                exists b, (b < n)%nat /\
                          Contains (SubMapName full) (fragment layers b) = true)
             (StreamingLevels W) ->
      ConvertMapLayerMaskToMapNames layers Contains W (AllLayersMask layers) []
      = Ok (map SubMapName (StreamingLevels W)).
Proof.
  intros Hok. split.
  - destruct (Convert_spec layers Contains W 0 [] Hok) as [L [HL H]].
    rewrite RequestedLayers_zero in HL. apply Ok_inj in HL. subst L.
    rewrite H. f_equal. cbn [app]. unfold matches. cbn [existsb].
    induction (map SubMapName (StreamingLevels W)); auto.
  - intros n HA Hall.
    assert (Hn : (n <= 31)%nat).
    { pose proof (AllLayersMask_in_range layers) as Hr.
      rewrite HA, Z.ones_equiv in Hr.
      unfold Int32.in_range, Int32.max_signed in Hr.
      destruct (Nat.le_gt_cases n 31) as [|Hgt]; [assumption|].
      assert (2 ^ 32 <= 2 ^ Z.of_nat n) by (apply Z.pow_le_mono_r; lia).
      lia. }
    destruct (Convert_spec layers Contains W (AllLayersMask layers) [] Hok)
      as [L [HL H]].
    rewrite H. cbn [app]. f_equal. apply filter_all.
    apply Forall_forall. intros name Hname.
    apply in_map_iff in Hname. destruct Hname as [full [<- Hfull]].
    rewrite Forall_forall in Hall.
    destruct (Hall full Hfull) as [b [Hb Hc]].
    unfold matches. apply existsb_exists.
    exists (fragment layers b). split; [|exact Hc].
    rewrite RequestedLayers_total in HL. apply Ok_inj in HL. subst L.
    apply in_map. apply filter_In. split.
    + apply in_seq. rewrite HA, run_from_ones. lia.
    + rewrite HA. apply Z.ones_spec_low. lia.
Qed.

Lemma C7_resolve_none_and_all_witness :
  ConvertMapLayerMaskToMapNames Demo.layers Demo.Contains Demo.town 0 [] = Ok []
  /\ ConvertMapLayerMaskToMapNames Demo.layers Demo.Contains Demo.town 0xFFFF []
     = Ok ["Town01_Decals"; "Town01_Foliage"; "Town01_Buildings"].
Proof.
  destruct (C7_resolve_none_and_all Demo.layers Demo.Contains Demo.town
              Demo_town_named)
    as [H0 HAll].
  split; [exact H0|].
  apply (HAll 16%nat); [reflexivity|].
  repeat constructor.
  - exists 1%nat. split; [lia | reflexivity].
  - exists 2%nat. split; [lia | reflexivity].
  - exists 0%nat. split; [lia | reflexivity].
Defined.

(** ** The controller *)


Lemma stream_calls_length (issue : FName -> Z -> Call) (names : list FName) :
  forall UUID, List.length (stream_calls issue names UUID) = List.length names.
Proof.
  induction names as [|n rest IH]; intros UUID; cbn [stream_calls List.length];
    [reflexivity | rewrite IH; reflexivity].
Qed.

(** A kind of call the issuing function never makes does not occur. *)
Lemma stream_calls_count (issue : FName -> Z -> Call) (p : Call -> bool)
      (names : list FName) (UUID : Z) :
  (forall n u, p (issue n u) = false) ->
  count p (stream_calls issue names UUID) = 0%nat.
Proof.
  intros Hp. revert UUID. unfold count.
  induction names as [|n rest IH]; intros UUID; cbn [stream_calls filter];
    [reflexivity | rewrite Hp; apply IH].
Qed.


Section ControllerFacts.

Variable ctype : CounterType.
Variable layers : MapLayerDecl.
Variable Contains : string -> string -> bool.
Variable W : World.

Lemma OnLoadStreamLevel_spec (s : GameMode) :
  OnLoadStreamLevel ctype s
  = Ok (tt,
        set_PendingLevelsToLoad (decrement ctype (PendingLevelsToLoad s)) s,
        if ReadyToRegisterObjects s
           && (decrement ctype (PendingLevelsToLoad s) =? 0)
        then registerAndTag else []).
Proof.
  unfold OnLoadStreamLevel, bind, modify, get.
  cbn [set_PendingLevelsToLoad PendingLevelsToLoad ReadyToRegisterObjects].
  destruct (ReadyToRegisterObjects s
            && (decrement ctype (PendingLevelsToLoad s) =? 0));
    reflexivity.
Qed.

Lemma OnUnloadStreamLevel_spec (s : GameMode) :
  OnUnloadStreamLevel ctype s
  = Ok (tt,
        set_PendingLevelsToUnLoad (decrement ctype (PendingLevelsToUnLoad s)) s,
        if ReadyToRegisterObjects s
           && (decrement ctype (PendingLevelsToUnLoad s) =? 0)
        then registerOnly else []).
Proof.
  unfold OnUnloadStreamLevel, bind, modify, get.
  cbn [set_PendingLevelsToUnLoad PendingLevelsToUnLoad ReadyToRegisterObjects].
  destruct (ReadyToRegisterObjects s
            && (decrement ctype (PendingLevelsToUnLoad s) =? 0));
    reflexivity.
Qed.

(** The streaming loops issue one call per name and touch no field. *)
Lemma load_each_spec (LevelsToLoad : list FName) :
  forall (UUID : Z) (s : GameMode),
    load_each LevelsToLoad UUID s
    = Ok (tt, s, stream_calls LoadStreamLevel LevelsToLoad UUID).
Proof.
  induction LevelsToLoad as [|LevelName rest IH]; intros UUID s.
  - reflexivity.
  - cbn [load_each stream_calls]. unfold bind, call. rewrite IH. reflexivity.
Qed.

Lemma unload_each_spec (LevelsToUnLoad : list FName) :
  forall (UUID : Z) (s : GameMode),
    unload_each LevelsToUnLoad UUID s
    = Ok (tt, s, stream_calls UnloadStreamLevel LevelsToUnLoad UUID).
Proof.
  induction LevelsToUnLoad as [|LevelName rest IH]; intros UUID s.
  - reflexivity.
  - cbn [unload_each stream_calls]. unfold bind, call. rewrite IH. reflexivity.
Qed.

Hypothesis Hnamed : named_levels W.

Lemma LoadMapLayer_spec (MapLayers : Z) (s : GameMode) :
  exists resolved,
    ConvertMapLayerMaskToMapNames layers Contains W MapLayers [] = Ok resolved /\
    LoadMapLayer layers Contains W MapLayers s
    = Ok (tt, set_PendingLevelsToLoad (Num resolved) s,
          stream_calls LoadStreamLevel resolved 1).
Proof.
  destruct (Convert_append layers Contains W MapLayers [] Hnamed)
    as [resolved [Hres _]].
  exists resolved. split; [exact Hres|].
  unfold LoadMapLayer, bind, lift, modify.
  rewrite Hres, load_each_spec. reflexivity.
Qed.

Lemma UnLoadMapLayer_spec (MapLayers : Z) (s : GameMode) :
  exists resolved,
    ConvertMapLayerMaskToMapNames layers Contains W MapLayers [] = Ok resolved /\
    UnLoadMapLayer layers Contains W MapLayers s
    = Ok (tt, set_PendingLevelsToUnLoad (Num resolved) s,
          stream_calls UnloadStreamLevel resolved 1).
Proof.
  destruct (Convert_append layers Contains W MapLayers [] Hnamed)
    as [resolved [Hres _]].
  exists resolved. split; [exact Hres|].
  unfold UnLoadMapLayer, bind, lift, modify.
  rewrite Hres, unload_each_spec. reflexivity.
Qed.

Lemma BeginPlay_spec (s : GameMode) :
  exists resolved,
    ConvertMapLayerMaskToMapNames layers Contains W (CurrentMapLayer W) []
    = Ok resolved /\
    BeginPlay layers Contains W s
    = Ok (tt,
          set_ReadyToRegisterObjects true
            (set_PendingLevelsToLoad (Num resolved) s),
          [SuperBeginPlay]
            ++ stream_calls LoadStreamLevel resolved 1
            ++ [TagActorsInLevel; SetSemanticSegmentationEnabled;
                SpawnDecalActor; GetTrafficLightManager;
                InitializeTrafficLights; InitializeAtBeginPlay;
                NotifyBeginEpisode]
            ++ (if HasWeather W then [ApplyWeather] else [])
            ++ (if HasRecorder W then [CheckPlayAfterMapLoaded] else [])
            ++ (if Num resolved =? 0 then registerOnly else [])).
Proof.
  destruct (LoadMapLayer_spec (CurrentMapLayer W) s) as [resolved [Hres Hload]].
  exists resolved. split; [exact Hres|].
  unfold BeginPlay, bind, call. rewrite Hload.
  destruct (HasWeather W), (HasRecorder W);
    cbv [modify get set_ReadyToRegisterObjects set_PendingLevelsToLoad
         PendingLevelsToLoad ReadyToRegisterObjects andb
         ret call bind RegisterEnvironmentObjects registerOnly app];
    destruct (Num resolved =? 0); reflexivity.
Qed.

(** Composition of runs. *)
Lemma perform_all_cons (o : Op) (os : list Op) (s s1 s2 : GameMode)
      (l1 l2 : list Call) :
  perform ctype layers Contains W o s = Ok (tt, s1, l1) ->
  perform_all ctype layers Contains W os s1 = Ok (tt, s2, l2) ->
  perform_all ctype layers Contains W (o :: os) s = Ok (tt, s2, l1 ++ l2).
Proof.
  intros Ho Hos. cbn [perform_all]. unfold bind. rewrite Ho, Hos. reflexivity.
Qed.

Lemma perform_all_cons_inv (o : Op) (os : list Op) (s s1 s2 : GameMode)
      (l1 l : list Call) :
  perform ctype layers Contains W o s = Ok (tt, s1, l1) ->
  perform_all ctype layers Contains W (o :: os) s = Ok (tt, s2, l) ->
  exists l2, perform_all ctype layers Contains W os s1 = Ok (tt, s2, l2)
             /\ l = l1 ++ l2.
Proof.
  intros Ho Hrun. cbn [perform_all] in Hrun. unfold bind in Hrun.
  rewrite Ho in Hrun.
  destruct (perform_all ctype layers Contains W os s1) as [[[[] s2'] l2]| |];
    try discriminate.
  exists l2. split; congruence.
Qed.



End ControllerFacts.

(** ** A load batch settles with one registration-and-tagging pass *)

Section Batch.

Variable ctype : CounterType.
Variable layers : MapLayerDecl.
Variable Contains : string -> string -> bool.
Variable W : World.
Hypothesis Hnamed : named_levels W.



End Batch.

(** ** Registration after loads *)




(** Two batches, the second requested after the first has settled: one
    pass each. *)
Example two_batches_in_sequence :
  (LoadMapLayer Demo.layers Demo.Contains Demo.town 2 ;;
   OnLoadStreamLevel CounterInt ;;
   LoadMapLayer Demo.layers Demo.Contains Demo.town 5 ;;
   OnLoadStreamLevel CounterInt ;;
   OnLoadStreamLevel CounterInt) ready_idle
  = Ok (tt, ready_idle,
        [LoadStreamLevel "Town01_Decals" 1;
         GetAllActorsOfClass; RegisterObjects; TagActorsInLevel;
         LoadStreamLevel "Town01_Foliage" 1;
         LoadStreamLevel "Town01_Buildings" 2;
         GetAllActorsOfClass; RegisterObjects; TagActorsInLevel]).
Proof. reflexivity. Qed.

(** A load request issued while an earlier one is in flight overwrites the
    counter; that case is outside the batches above. *)
Example load_request_overwrites_counter :
  (LoadMapLayer Demo.layers Demo.Contains Demo.town 2 ;;
   LoadMapLayer Demo.layers Demo.Contains Demo.town 5) ready_idle
  = Ok (tt, two_loads_pending,
        [LoadStreamLevel "Town01_Decals" 1;
         LoadStreamLevel "Town01_Foliage" 1;
         LoadStreamLevel "Town01_Buildings" 2]).
Proof. reflexivity. Qed.

(** ** The counters *)

(** C2, as the code has it.  A completion callback decrements its counter
    by exactly one, without a floor.  From a count in 1 .. 2^31 the result
    is one less and not negative.  From 0 the result is -1 for an [int]
    field (2^32 - 1 for an unsigned one): it is not 0, and the callback
    makes no call at all, so no registration pass. *)
Theorem C2_decrement_without_floor (ctype : CounterType) (s : GameMode) :
  let after_zero :=
    match ctype with CounterInt => -1 | CounterUInt => 4294967295 end in
  (exists s' l,
      OnLoadStreamLevel ctype s = Ok (tt, s', l) /\
      (1 <= PendingLevelsToLoad s <= 2 ^ 31 ->
       PendingLevelsToLoad s' = PendingLevelsToLoad s - 1
       /\ 0 <= PendingLevelsToLoad s') /\
      (PendingLevelsToLoad s = 0 ->
       PendingLevelsToLoad s' = after_zero /\ l = []))
  /\
  (exists s' l,
      OnUnloadStreamLevel ctype s = Ok (tt, s', l) /\
      (1 <= PendingLevelsToUnLoad s <= 2 ^ 31 ->
       PendingLevelsToUnLoad s' = PendingLevelsToUnLoad s - 1
       /\ 0 <= PendingLevelsToUnLoad s') /\
      (PendingLevelsToUnLoad s = 0 ->
       PendingLevelsToUnLoad s' = after_zero /\ l = [])).
Proof.
  intros after_zero. split.
  - rewrite OnLoadStreamLevel_spec. do 2 eexists. split; [reflexivity|].
    cbn [set_PendingLevelsToLoad PendingLevelsToLoad]. split.
    + intros H. rewrite decrement_pred by lia. lia.
    + intros ->. rewrite decrement_zero. split; [reflexivity|].
      destruct ctype, (ReadyToRegisterObjects s); reflexivity.
  - rewrite OnUnloadStreamLevel_spec. do 2 eexists. split; [reflexivity|].
    cbn [set_PendingLevelsToUnLoad PendingLevelsToUnLoad]. split.
    + intros H. rewrite decrement_pred by lia. lia.
    + intros ->. rewrite decrement_zero. split; [reflexivity|].
      destruct ctype, (ReadyToRegisterObjects s); reflexivity.
Qed.

Lemma C2_decrement_without_floor_witness :
  exists s' l,
    OnLoadStreamLevel CounterInt ready_idle = Ok (tt, s', l)
    /\ PendingLevelsToLoad s' = -1 /\ l = [].
Proof.
  destruct (C2_decrement_without_floor CounterInt ready_idle)
    as [[s' [l [Hrun [_ Hzero]]]] _].
  exists s', l. split; [exact Hrun|]. apply Hzero. reflexivity.
Defined.

(** A spurious completion at counter 0: the counter leaves 0 downward (or
    wraps), against a floor at 0. *)
Lemma C2_floor_counterexample :
  OnLoadStreamLevel CounterInt ready_idle
  = Ok (tt, {| PendingLevelsToLoad := -1;
               PendingLevelsToUnLoad := 0;
               ReadyToRegisterObjects := true |}, [])
  /\ OnUnloadStreamLevel CounterInt ready_idle
     = Ok (tt, {| PendingLevelsToLoad := 0;
                  PendingLevelsToUnLoad := -1;
                  ReadyToRegisterObjects := true |}, [])
  /\ OnLoadStreamLevel CounterUInt ready_idle
     = Ok (tt, {| PendingLevelsToLoad := 4294967295;
                  PendingLevelsToUnLoad := 0;
                  ReadyToRegisterObjects := true |}, [])
  /\ ~ (forall ctype s s' l,
           0 <= PendingLevelsToLoad s ->
           OnLoadStreamLevel ctype s = Ok (tt, s', l) ->
           PendingLevelsToLoad s' = Z.max 0 (PendingLevelsToLoad s - 1)).
Proof.
  repeat split; try reflexivity.
  intros H.
  specialize (H CounterInt ready_idle _ _ ltac:(simpl; lia) eq_refl).
  discriminate H.
Qed.

(** ** BeginPlay *)






(** ** Registration after unloads *)

(** C4.  With the ready gate set, an unload completion that brings the
    pending-unload counter to 0 makes exactly the registration-only calls
    (all actors are fetched and handed to the object register), and no
    unload completion, in any state, makes a tagging call. *)
Theorem C4_unload_registers_only (ctype : CounterType) (s : GameMode) :
  ReadyToRegisterObjects s = true ->
  decrement ctype (PendingLevelsToUnLoad s) = 0 ->
  OnUnloadStreamLevel ctype s
  = Ok (tt, set_PendingLevelsToUnLoad 0 s,
        [GetAllActorsOfClass; RegisterObjects])
  /\ count is_tagging [GetAllActorsOfClass; RegisterObjects] = 0%nat
  /\ forall s0, exists s' l,
       OnUnloadStreamLevel ctype s0 = Ok (tt, s', l)
       /\ count is_tagging l = 0%nat.
Proof.
  intros Hready Hzero. repeat split.
  - rewrite OnUnloadStreamLevel_spec, Hready, Hzero. reflexivity.
  - intros s0. rewrite OnUnloadStreamLevel_spec. do 2 eexists.
    split; [reflexivity|].
    destruct (ReadyToRegisterObjects s0
              && (decrement ctype (PendingLevelsToUnLoad s0) =? 0));
      reflexivity.
Qed.

Lemma C4_unload_registers_only_witness :
  OnUnloadStreamLevel CounterInt
    {| PendingLevelsToLoad := 0;
       PendingLevelsToUnLoad := 1;
       ReadyToRegisterObjects := true |}
  = Ok (tt, ready_idle, [GetAllActorsOfClass; RegisterObjects]).
Proof.
  exact (proj1 (C4_unload_registers_only CounterInt
                  {| PendingLevelsToLoad := 0;
                     PendingLevelsToUnLoad := 1;
                     ReadyToRegisterObjects := true |}
                  eq_refl eq_refl)).
Defined.

(** The scenario of three unloads: one registration-only pass, on the third
    completion, and no tagging. *)
Example unload_three_levels :
  (UnLoadMapLayer Demo.layers Demo.Contains Demo.town 7 ;;
   OnUnloadStreamLevel CounterInt ;;
   OnUnloadStreamLevel CounterInt ;;
   OnUnloadStreamLevel CounterInt) ready_idle
  = Ok (tt, ready_idle,
        [UnloadStreamLevel "Town01_Decals" 1;
         UnloadStreamLevel "Town01_Foliage" 2;
         UnloadStreamLevel "Town01_Buildings" 3;
         GetAllActorsOfClass; RegisterObjects]).
Proof. reflexivity. Qed.

(** ** Requests *)

(** C8, as the code has it.  When the mask resolves to no sub-level,
    [LoadMapLayer] issues no streaming operation and makes no other call;
    it writes 0 into the pending-load counter and leaves the pending-unload
    counter and the ready gate as they were.  The state is unchanged when
    the counter was 0 already. *)
Theorem C8_empty_request (layers : MapLayerDecl)
        (Contains : string -> string -> bool) (W : World)
        (MapLayers : Z) (s : GameMode) :
  ConvertMapLayerMaskToMapNames layers Contains W MapLayers [] = Ok [] ->
  LoadMapLayer layers Contains W MapLayers s
  = Ok (tt, set_PendingLevelsToLoad 0 s, [])
  /\ PendingLevelsToLoad (set_PendingLevelsToLoad 0 s) = 0
  /\ PendingLevelsToUnLoad (set_PendingLevelsToLoad 0 s)
     = PendingLevelsToUnLoad s
  /\ ReadyToRegisterObjects (set_PendingLevelsToLoad 0 s)
     = ReadyToRegisterObjects s
  /\ (PendingLevelsToLoad s = 0 -> set_PendingLevelsToLoad 0 s = s).
Proof.
  intros Hres. repeat split.
  - unfold LoadMapLayer, bind, lift, modify. rewrite Hres. reflexivity.
  - intros Hz. destruct s as [pl pu r]. cbn in Hz. subst pl. reflexivity.
Qed.

Lemma C8_empty_request_witness :
  LoadMapLayer Demo.layers Demo.Contains Demo.town 0 ready_idle
  = Ok (tt, ready_idle, []).
Proof.
  exact (proj1 (C8_empty_request Demo.layers Demo.Contains Demo.town 0
                  ready_idle eq_refl)).
Defined.

(** An empty request while two loads are pending: the counter is
    overwritten with 0. *)
Lemma C8_state_unchanged_counterexample :
  ConvertMapLayerMaskToMapNames Demo.layers Demo.Contains Demo.town 0 [] = Ok []
  /\ LoadMapLayer Demo.layers Demo.Contains Demo.town 0 two_loads_pending
     = Ok (tt, ready_idle, [])
  /\ PendingLevelsToLoad two_loads_pending = 2
  /\ PendingLevelsToLoad ready_idle = 0
  /\ ~ (exists l,
           LoadMapLayer Demo.layers Demo.Contains Demo.town 0 two_loads_pending
           = Ok (tt, two_loads_pending, l)).
Proof.
  repeat split.
  intros [l H]. apply Ok_run_inj in H. destruct H as [H _]. discriminate H.
Qed.

(** C9.  The two directions are independent.  A load completion leaves the
    pending-unload counter and the ready gate as they were, an unload
    completion the pending-load counter and the gate; a load request writes
    only the pending-load counter and an unload request only the
    pending-unload counter, and neither registers anything.  What a
    completion callback does is decided by its own counter and the gate
    alone, so events of the other direction change neither its counter nor
    its registration trigger. *)
Theorem C9_directions_independent (ctype : CounterType)
        (layers : MapLayerDecl) (Contains : string -> string -> bool)
        (W : World) (MapLayers : Z) (s : GameMode) :
  named_levels W ->
  (exists s' l,
      OnLoadStreamLevel ctype s = Ok (tt, s', l) /\
      PendingLevelsToUnLoad s' = PendingLevelsToUnLoad s /\
      ReadyToRegisterObjects s' = ReadyToRegisterObjects s)
  /\ (exists s' l,
      OnUnloadStreamLevel ctype s = Ok (tt, s', l) /\
      PendingLevelsToLoad s' = PendingLevelsToLoad s /\
      ReadyToRegisterObjects s' = ReadyToRegisterObjects s)
  /\ (exists s' l,
      LoadMapLayer layers Contains W MapLayers s = Ok (tt, s', l) /\
      PendingLevelsToUnLoad s' = PendingLevelsToUnLoad s /\
      ReadyToRegisterObjects s' = ReadyToRegisterObjects s /\
      count is_registration l = 0%nat)
  /\ (exists s' l,
      UnLoadMapLayer layers Contains W MapLayers s = Ok (tt, s', l) /\
      PendingLevelsToLoad s' = PendingLevelsToLoad s /\
      ReadyToRegisterObjects s' = ReadyToRegisterObjects s /\
      count is_registration l = 0%nat)
  /\ (forall t,
      PendingLevelsToLoad t = PendingLevelsToLoad s ->
      ReadyToRegisterObjects t = ReadyToRegisterObjects s ->
      exists s' t' l,
        OnLoadStreamLevel ctype s = Ok (tt, s', l) /\
        OnLoadStreamLevel ctype t = Ok (tt, t', l) /\
        PendingLevelsToLoad t' = PendingLevelsToLoad s')
  /\ (forall t,
      PendingLevelsToUnLoad t = PendingLevelsToUnLoad s ->
      ReadyToRegisterObjects t = ReadyToRegisterObjects s ->
      exists s' t' l,
        OnUnloadStreamLevel ctype s = Ok (tt, s', l) /\
        OnUnloadStreamLevel ctype t = Ok (tt, t', l) /\
        PendingLevelsToUnLoad t' = PendingLevelsToUnLoad s').
Proof.
  intros Hnamed.
  destruct (LoadMapLayer_spec layers Contains W Hnamed MapLayers s)
    as [rl [_ Hload]].
  destruct (UnLoadMapLayer_spec layers Contains W Hnamed MapLayers s)
    as [ru [_ Hunload]].
  repeat split.
  - rewrite OnLoadStreamLevel_spec. do 2 eexists. repeat split.
  - rewrite OnUnloadStreamLevel_spec. do 2 eexists. repeat split.
  - rewrite Hload. do 2 eexists. repeat split.
    apply stream_calls_count. reflexivity.
  - rewrite Hunload. do 2 eexists. repeat split.
    apply stream_calls_count. reflexivity.
  - intros t Hc Hr. rewrite !OnLoadStreamLevel_spec, Hc, Hr.
    do 3 eexists. repeat split.
  - intros t Hc Hr. rewrite !OnUnloadStreamLevel_spec, Hc, Hr.
    do 3 eexists. repeat split.
Qed.

Lemma C9_directions_independent_witness :
  exists s' l,
    UnLoadMapLayer Demo.layers Demo.Contains Demo.town 6 two_loads_pending
    = Ok (tt, s', l)
    /\ PendingLevelsToLoad s' = 2.
Proof.
  destruct (C9_directions_independent CounterInt Demo.layers Demo.Contains
              Demo.town 6 two_loads_pending Demo_town_named)
    as [_ [_ [_ [[s' [l [Hrun [Hc _]]]] _]]]].
  exists s', l. split; [exact Hrun | exact Hc].
Defined.

(** C10.  [ConvertMapLayerMaskToMapNames] appends the resolved names to the
    array it is given and clears nothing, so its output is the resolved list
    exactly when the array passed in is empty.  [LoadMapLayer] and
    [UnLoadMapLayer] pass a fresh empty array: the counter each one sets is
    the size of the list resolved for that request, and so is the number of
    streaming calls it issues. *)
Theorem C10_output_appended (layers : MapLayerDecl)
        (Contains : string -> string -> bool) (W : World)
        (MapLayers : Z) (OutLevelNames : list FName) (s : GameMode) :
  named_levels W ->
  exists resolved,
    ConvertMapLayerMaskToMapNames layers Contains W MapLayers [] = Ok resolved
    /\ ConvertMapLayerMaskToMapNames layers Contains W MapLayers OutLevelNames
       = Ok (OutLevelNames ++ resolved)
    /\ (OutLevelNames ++ resolved = resolved <-> OutLevelNames = [])
    /\ LoadMapLayer layers Contains W MapLayers s
       = Ok (tt, set_PendingLevelsToLoad (Num resolved) s,
             stream_calls LoadStreamLevel resolved 1)
    /\ UnLoadMapLayer layers Contains W MapLayers s
       = Ok (tt, set_PendingLevelsToUnLoad (Num resolved) s,
             stream_calls UnloadStreamLevel resolved 1)
    /\ PendingLevelsToLoad (set_PendingLevelsToLoad (Num resolved) s)
       = Z.of_nat (List.length resolved)
    /\ PendingLevelsToUnLoad (set_PendingLevelsToUnLoad (Num resolved) s)
       = Z.of_nat (List.length resolved)
    /\ List.length (stream_calls LoadStreamLevel resolved 1)
       = List.length resolved
    /\ List.length (stream_calls UnloadStreamLevel resolved 1)
       = List.length resolved.
Proof.
  intros Hnamed.
  destruct (Convert_append layers Contains W MapLayers OutLevelNames Hnamed)
    as [resolved [Hres Happ]].
  destruct (LoadMapLayer_spec layers Contains W Hnamed MapLayers s)
    as [rl [Hrl Hload]].
  destruct (UnLoadMapLayer_spec layers Contains W Hnamed MapLayers s)
    as [ru [Hru Hunload]].
  assert (rl = resolved) by congruence.
  assert (ru = resolved) by congruence. subst rl ru.
  exists resolved. repeat split; try assumption;
    try apply stream_calls_length.
  - intros Heq. apply (f_equal (@List.length FName)) in Heq.
    rewrite length_app in Heq. destruct OutLevelNames; [reflexivity|].
    cbn [List.length] in Heq. lia.
  - intros ->. reflexivity.
Qed.

Lemma C10_output_appended_witness :
  ConvertMapLayerMaskToMapNames Demo.layers Demo.Contains Demo.town 6
    ["Town01_Walls"]
  = Ok ["Town01_Walls"; "Town01_Decals"; "Town01_Foliage"].
Proof.
  destruct (C10_output_appended Demo.layers Demo.Contains Demo.town 6
              ["Town01_Walls"] initial Demo_town_named)
    as [resolved [Hres [Happ _]]].
  vm_compute in Hres. apply Ok_inj in Hres. subst resolved. exact Happ.
Defined.

(** * Further properties of the code *)

(** ** Failure of the resolution *)

Lemma match_levels_unnamed (Contains : string -> string -> bool)
      (LayersToLoad : list string) :
  forall (Levels : list string) (Out : list FName),
    Exists (fun n => n = "") Levels ->
    match_levels Contains Levels LayersToLoad Out = CheckFailed.
Proof.
  induction Levels as [|full rest IH]; intros Out Hex.
  - inversion Hex.
  - cbn [match_levels]. destruct full as [|c full].
    + reflexivity.
    + rewrite SubMapName_index by discriminate.
      apply IH. inversion Hex as [? ? Hhd | ? ? Htl]; [discriminate | exact Htl].
Qed.

Lemma named_or_not (Levels : list string) :
  Forall (fun n => n <> "") Levels \/ Exists (fun n => n = "") Levels.
Proof.
  induction Levels as [|full rest [IH|IH]].
  - left. constructor.
  - destruct full as [|c full].
    + right. constructor. reflexivity.
    + left. constructor; [discriminate | exact IH].
  - right. apply Exists_cons_tl. exact IH.
Qed.

Lemma Convert_unnamed (layers : MapLayerDecl)
      (Contains : string -> string -> bool) (W : World)
      (MapLayer : Z) (OutLevelNames : list FName) :
  Exists (fun n => n = "") (StreamingLevels W) ->
  ConvertMapLayerMaskToMapNames layers Contains W MapLayer OutLevelNames
  = CheckFailed.
Proof.
  intros Hex. unfold ConvertMapLayerMaskToMapNames.
  rewrite RequestedLayers_total. apply match_levels_unnamed. exact Hex.
Qed.

Lemma LoadMapLayer_unnamed (layers : MapLayerDecl)
      (Contains : string -> string -> bool) (W : World)
      (MapLayers : Z) (s : GameMode) :
  Exists (fun n => n = "") (StreamingLevels W) ->
  LoadMapLayer layers Contains W MapLayers s = CheckFailed.
Proof.
  intros Hex. unfold LoadMapLayer, bind, lift.
  rewrite Convert_unnamed by exact Hex. reflexivity.
Qed.

(** The resolution fails exactly when some streaming level has an empty
    package name, then at the range check and whatever the mask and the
    output array; it never runs out of iterations.  The two requests and
    [BeginPlay] fail in that case too. *)
Theorem resolution_fails_iff_unnamed_level (layers : MapLayerDecl)
        (Contains : string -> string -> bool) (W : World)
        (MapLayer : Z) (OutLevelNames : list FName) (s : GameMode) :
  (ConvertMapLayerMaskToMapNames layers Contains W MapLayer OutLevelNames
   = CheckFailed
   <-> Exists (fun n => n = "") (StreamingLevels W))
  /\ ConvertMapLayerMaskToMapNames layers Contains W MapLayer OutLevelNames
     <> OutOfFuel
  /\ (Exists (fun n => n = "") (StreamingLevels W) ->
      LoadMapLayer layers Contains W MapLayer s = CheckFailed
      /\ UnLoadMapLayer layers Contains W MapLayer s = CheckFailed
      /\ BeginPlay layers Contains W s = CheckFailed).
Proof.
  assert (Hbad : forall m Out,
             Exists (fun n => n = "") (StreamingLevels W) ->
             ConvertMapLayerMaskToMapNames layers Contains W m Out
             = CheckFailed)
    by (intros m Out; apply Convert_unnamed).
  repeat split.
  - intros Hfail. destruct (named_or_not (StreamingLevels W)) as [Hok|Hex];
      [|exact Hex].
    destruct (Convert_spec layers Contains W MapLayer OutLevelNames Hok)
      as [L [_ H]].
    rewrite H in Hfail. discriminate.
  - apply Hbad.
  - destruct (named_or_not (StreamingLevels W)) as [Hok|Hex].
    + destruct (Convert_spec layers Contains W MapLayer OutLevelNames Hok)
        as [L [_ H]].
      rewrite H. discriminate.
    + rewrite Hbad by exact Hex. discriminate.
  - apply LoadMapLayer_unnamed. assumption.
  - unfold UnLoadMapLayer, bind, lift. rewrite Hbad by assumption. reflexivity.
  - unfold BeginPlay, bind, call, LoadMapLayer, lift.
    rewrite Hbad by assumption. reflexivity.
Qed.

Lemma resolution_fails_iff_unnamed_level_witness :
  LoadMapLayer Demo.layers Demo.Contains
    {| StreamingLevels := ["/Game/Carla/Maps/Sublevels/Town01_Decals"; ""];
       CurrentMapLayer := 0; HasWeather := false; HasRecorder := false |}
    2 ready_idle
  = CheckFailed.
Proof.
  refine (proj1 (proj2 (proj2
    (resolution_fails_iff_unnamed_level Demo.layers Demo.Contains
       {| StreamingLevels := ["/Game/Carla/Maps/Sublevels/Town01_Decals"; ""];
          CurrentMapLayer := 0; HasWeather := false; HasRecorder := false |}
       2 [] ready_idle)) _)).
  apply Exists_cons_tl. constructor. reflexivity.
Defined.

(** ** Masks compose *)

Lemma matches_union (Contains : string -> string -> bool)
      (f : nat -> string) (p q : nat -> bool) (name : string) :
  forall positions,
    matches Contains
            (map f (filter (fun i => p i || q i) positions)) name
    = matches Contains (map f (filter p positions)) name
      || matches Contains (map f (filter q positions)) name.
Proof.
  unfold matches.
  induction positions as [|i rest IH]; cbn [filter map existsb].
  - reflexivity.
  - destruct (p i), (q i); cbn [orb map existsb]; rewrite IH;
      destruct (Contains name (f i)); cbn [orb];
      try reflexivity; try (rewrite !orb_true_r; reflexivity).
Qed.

(** The resolution of the union of two masks keeps exactly the sub-levels
    that one of the two masks resolves to, in the order of the known
    sub-level list: resolving never depends on which other layers are
    requested along. *)
Theorem union_of_masks_resolves_to_union (layers : MapLayerDecl)
        (Contains : string -> string -> bool) (W : World) (m1 m2 : Z) :
  named_levels W ->
  exists keep1 keep2 : string -> bool,
    ConvertMapLayerMaskToMapNames layers Contains W m1 []
    = Ok (filter keep1 (map SubMapName (StreamingLevels W)))
    /\ ConvertMapLayerMaskToMapNames layers Contains W m2 []
       = Ok (filter keep2 (map SubMapName (StreamingLevels W)))
    /\ ConvertMapLayerMaskToMapNames layers Contains W (Z.lor m1 m2) []
       = Ok (filter (fun name => keep1 name || keep2 name)
                    (map SubMapName (StreamingLevels W))).
Proof.
  intros Hok.
  destruct (Convert_spec layers Contains W m1 [] Hok) as [L1 [HL1 H1]].
  destruct (Convert_spec layers Contains W m2 [] Hok) as [L2 [HL2 H2]].
  destruct (Convert_spec layers Contains W (Z.lor m1 m2) [] Hok)
    as [L [HL H]].
  exists (matches Contains L1), (matches Contains L2).
  rewrite H1, H2, H. cbn [app]. repeat split.
  f_equal. apply filter_ext. intros name.
  rewrite RequestedLayers_total in HL1, HL2, HL.
  apply Ok_inj in HL1. apply Ok_inj in HL2. apply Ok_inj in HL.
  subst L1 L2 L.
  rewrite <- matches_union. f_equal. f_equal.
  apply filter_ext. intros i. apply Z.lor_spec.
Qed.

Lemma union_of_masks_resolves_to_union_witness :
  exists keep1 keep2 : string -> bool,
    ConvertMapLayerMaskToMapNames Demo.layers Demo.Contains Demo.town 2 []
    = Ok (filter keep1 (map SubMapName (StreamingLevels Demo.town)))
    /\ ConvertMapLayerMaskToMapNames Demo.layers Demo.Contains Demo.town 1 []
       = Ok (filter keep2 (map SubMapName (StreamingLevels Demo.town)))
    /\ ConvertMapLayerMaskToMapNames Demo.layers Demo.Contains Demo.town
         (Z.lor 2 1) []
       = Ok (filter (fun name => keep1 name || keep2 name)
                    (map SubMapName (StreamingLevels Demo.town))).
Proof.
  exact (union_of_masks_resolves_to_union Demo.layers Demo.Contains
           Demo.town 2 1 Demo_town_named).
Defined.

(** ** What a request asks of the engine *)

Lemma filter_length_le {T : Type} (p : T -> bool) (l : list T) :
  (List.length (filter p l) <= List.length l)%nat.
Proof.
  induction l as [|x l IH]; cbn [filter List.length]; [lia|].
  destruct (p x); cbn [List.length]; lia.
Qed.

Lemma stream_calls_names (issue : FName -> Z -> Call) (P : Call -> Prop)
      (names : list FName) :
  (forall n u, In n names -> P (issue n u)) ->
  forall UUID, Forall P (stream_calls issue names UUID).
Proof.
  induction names as [|n rest IH]; intros HP UUID; cbn [stream_calls].
  - constructor.
  - constructor.
    + apply HP. left. reflexivity.
    + apply IH. intros m u Hm. apply HP. right. exact Hm.
Qed.

(** A load request never asks for more than the world has: the counter it
    sets lies between 0 and the number of streaming levels, and every
    streaming call it issues names the short name of a level of the world
    and carries the load callback's direction. *)
Theorem load_request_within_world (layers : MapLayerDecl)
        (Contains : string -> string -> bool) (W : World)
        (MapLayers : Z) (s s' : GameMode) (issued : list Call) :
  LoadMapLayer layers Contains W MapLayers s = Ok (tt, s', issued) ->
  0 <= PendingLevelsToLoad s' <= Num (StreamingLevels W)
  /\ PendingLevelsToLoad s' = Num issued
  /\ Forall (fun c => exists full UUID,
                 In full (StreamingLevels W)
                 /\ c = LoadStreamLevel (SubMapName full) UUID)
            issued.
Proof.
  intros Hrun.
  destruct (named_or_not (StreamingLevels W)) as [Hok|Hex].
  - destruct (LoadMapLayer_spec layers Contains W Hok MapLayers s)
      as [resolved [Hres Hspec]].
    rewrite Hspec in Hrun. apply Ok_run_inj in Hrun.
    destruct Hrun as [<- <-].
    destruct (Convert_spec layers Contains W MapLayers [] Hok) as [L [_ HL]].
    rewrite HL in Hres. apply Ok_inj in Hres. cbn [app] in Hres.
    cbn [set_PendingLevelsToLoad PendingLevelsToLoad].
    split; [|split].
    + unfold Num. subst resolved.
      pose proof (filter_length_le (matches Contains L)
                    (map SubMapName (StreamingLevels W))) as Hle.
      rewrite length_map in Hle. unfold FName in *. lia.
    + unfold Num. rewrite stream_calls_length. reflexivity.
    + apply stream_calls_names. intros n u Hn. subst resolved.
      apply filter_In in Hn. destruct Hn as [Hn _].
      apply in_map_iff in Hn. destruct Hn as [full [<- Hfull]].
      exists full, u. split; [exact Hfull | reflexivity].
  - rewrite (LoadMapLayer_unnamed layers Contains W MapLayers s Hex) in Hrun.
    discriminate.
Qed.

Lemma load_request_within_world_witness :
  0 <= 2 <= Num (StreamingLevels Demo.town)
  /\ 2 = Num (stream_calls LoadStreamLevel
                ["Town01_Decals"; "Town01_Foliage"] 1)
  /\ Forall (fun c => exists full UUID,
                 In full (StreamingLevels Demo.town)
                 /\ c = LoadStreamLevel (SubMapName full) UUID)
            (stream_calls LoadStreamLevel
               ["Town01_Decals"; "Town01_Foliage"] 1).
Proof.
  exact (load_request_within_world Demo.layers Demo.Contains Demo.town 6
           ready_idle two_loads_pending
           (stream_calls LoadStreamLevel ["Town01_Decals"; "Town01_Foliage"] 1)
           eq_refl).
Defined.

Lemma Some_inj {T : Type} (x y : T) : Some x = Some y -> x = y.
Proof. congruence. Qed.

Lemma NoDup_map_injective {S T : Type} (f : S -> T) (l : list S) :
  (forall x y, f x = f y -> x = y) -> NoDup l -> NoDup (map f l).
Proof.
  intros Hinj. induction 1 as [|x l Hx _ IH]; cbn [map]; constructor.
  - intros Hin. apply in_map_iff in Hin. destruct Hin as [y [Hfy Hy]].
    apply Hinj in Hfy. subst y. contradiction.
  - exact IH.
Qed.

Lemma stream_calls_UUIDs (issue : FName -> Z -> Call) (names : list FName) :
  (forall n u, UUID_of (issue n u) = Some u) ->
  forall UUID,
    0 <= UUID ->
    UUID + Z.of_nat (List.length names) < 2 ^ 31 ->
    map UUID_of (stream_calls issue names UUID)
    = map (fun i => Some (UUID + Z.of_nat i)) (seq 0 (List.length names)).
Proof.
  intros Hissue. induction names as [|n rest IH]; intros UUID Hpos Hfit.
  - reflexivity.
  - cbn [stream_calls List.length seq map]. rewrite Hissue.
    cbn [List.length] in Hfit.
    rewrite wrap_id
      by (unfold Int32.in_range, Int32.min_signed, Int32.max_signed; lia).
    rewrite IH by lia. rewrite <- seq_shift, map_map.
    f_equal; [f_equal; lia|].
    apply map_ext. intros i. f_equal. lia.
Qed.

(** Within one request the latent-action identifiers are 1, 2, ..., N in
    issue order, hence pairwise distinct.  Every request starts again at 1:
    an unload request for a mask uses the same identifiers as a load request
    for it. *)
Theorem request_identifiers (layers : MapLayerDecl)
        (Contains : string -> string -> bool) (W : World)
        (MapLayers : Z) (s : GameMode) :
  named_levels W ->
  Num (StreamingLevels W) < 2 ^ 31 - 1 ->
  exists s1 s2 loads unloads,
    LoadMapLayer layers Contains W MapLayers s = Ok (tt, s1, loads)
    /\ UnLoadMapLayer layers Contains W MapLayers s = Ok (tt, s2, unloads)
    /\ map UUID_of loads
       = map (fun i => Some (1 + Z.of_nat i)) (seq 0 (List.length loads))
    /\ NoDup (map UUID_of loads)
    /\ map UUID_of unloads = map UUID_of loads.
Proof.
  intros Hok Hfit.
  destruct (LoadMapLayer_spec layers Contains W Hok MapLayers s)
    as [rl [Hrl Hload]].
  destruct (UnLoadMapLayer_spec layers Contains W Hok MapLayers s)
    as [ru [Hru Hunload]].
  assert (ru = rl) by congruence. subst ru.
  assert (Hlen : Z.of_nat (List.length rl) <= Num (StreamingLevels W)).
  { destruct (Convert_spec layers Contains W MapLayers [] Hok) as [L [_ HL]].
    rewrite HL in Hrl. apply Ok_inj in Hrl. cbn [app] in Hrl. subst rl.
    pose proof (filter_length_le (matches Contains L)
                  (map SubMapName (StreamingLevels W))) as Hle.
    rewrite length_map in Hle. unfold Num, FName in *. lia. }
  do 4 eexists. split; [exact Hload|]. split; [exact Hunload|].
  assert (Hl : map UUID_of (stream_calls LoadStreamLevel rl 1)
               = map (fun i => Some (1 + Z.of_nat i))
                     (seq 0 (List.length rl)))
    by (apply stream_calls_UUIDs; [reflexivity | lia | lia]).
  assert (Hu : map UUID_of (stream_calls UnloadStreamLevel rl 1)
               = map (fun i => Some (1 + Z.of_nat i))
                     (seq 0 (List.length rl)))
    by (apply stream_calls_UUIDs; [reflexivity | lia | lia]).
  split; [|split].
  - rewrite Hl, stream_calls_length. reflexivity.
  - rewrite Hl. apply NoDup_map_injective; [|apply seq_NoDup].
    intros i j Hij. apply Some_inj in Hij. lia.
  - rewrite Hl, Hu. reflexivity.
Qed.

Lemma request_identifiers_witness :
  exists s1 s2 loads unloads,
    LoadMapLayer Demo.layers Demo.Contains Demo.town 7 ready_idle
    = Ok (tt, s1, loads)
    /\ UnLoadMapLayer Demo.layers Demo.Contains Demo.town 7 ready_idle
       = Ok (tt, s2, unloads)
    /\ map UUID_of loads
       = map (fun i => Some (1 + Z.of_nat i)) (seq 0 (List.length loads))
    /\ NoDup (map UUID_of loads)
    /\ map UUID_of unloads = map UUID_of loads.
Proof.
  apply (request_identifiers Demo.layers Demo.Contains Demo.town 7 ready_idle
           Demo_town_named).
  reflexivity.
Defined.

(** ** The short name of a sub-level *)

Lemma append_assoc (a b c : string) :
  String.append (String.append a b) c = String.append a (String.append b c).
Proof. induction a as [|x a IH]; cbn [String.append]; congruence. Qed.

Lemma split_at_join (d : ascii) (s : string) : join d (split_at d s) = s.
Proof.
  induction s as [|c s IH]; cbn [split_at].
  - reflexivity.
  - destruct (Ascii.eqb_spec c d) as [->|Hne].
    + destruct (split_at_cons d s) as [p [ps Hs]].
      rewrite Hs in *. cbn [join String.append] in *. rewrite IH. reflexivity.
    + destruct (split_at_cons d s) as [p [ps Hs]].
      rewrite Hs in *. destruct ps as [|q ps]; cbn [join String.append] in *;
        rewrite IH; reflexivity.
Qed.

Lemma split_at_pieces (d : ascii) (s : string) :
  Forall (fun p => occurs d p = false) (split_at d s).
Proof.
  induction s as [|c s IH]; cbn [split_at].
  - repeat constructor.
  - destruct (Ascii.eqb c d) eqn:Hcd.
    + constructor; [reflexivity | exact IH].
    + destruct (split_at d s) as [|p ps]; [repeat constructor; cbn; now rewrite Hcd|].
      inversion IH as [|? ? Hp Hps]; subst.
      constructor; [|exact Hps].
      cbn [occurs]. rewrite Hcd, Hp. reflexivity.
Qed.

Lemma Forall_last {T : Type} (P : T -> Prop) (d : T) (l : list T) :
  l <> [] -> Forall P l -> P (last l d).
Proof.
  intros Hne HP. induction HP as [|x l Hx Hl IH]; [congruence|].
  destruct l as [|y l]; [exact Hx|].
  apply IH. discriminate.
Qed.

Lemma join_last (d : ascii) (l : list string) :
  l <> [] ->
  exists dir,
    join d l = String.append dir (last l "")
    /\ (dir = "" \/ exists dir', dir = String.append dir' (String d "")).
Proof.
  induction l as [|p l IH]; intros Hne; [congruence|].
  destruct l as [|q l].
  - exists "". split; [reflexivity | left; reflexivity].
  - destruct IH as [dir [Hjoin Hdir]]; [discriminate|].
    exists (String.append p (String d dir)). split.
    + change (join d (p :: q :: l))
        with (String.append p (String d (join d (q :: l)))).
      rewrite Hjoin. change (last (p :: q :: l) "") with (last (q :: l) "").
      rewrite append_assoc. reflexivity.
    + right. destruct Hdir as [->|[dir' ->]].
      * exists p. reflexivity.
      * exists (String.append p (String d dir')).
        rewrite append_assoc. reflexivity.
Qed.

(** For a level with a package name, the name the code keeps ("discard full
    path, we just need the umap name") is the text after the last slash: it
    contains no slash, and the package name is that short name preceded by
    nothing or by a path ending in a slash.  Putting the parsed pieces
    together with slashes gives the package name back. *)
Theorem short_name_is_last_component (FullSubMapName : string) :
  FullSubMapName <> "" ->
  exists dir,
    TArray_index (ParseIntoArray FullSubMapName "/"%char)
                 (Num (ParseIntoArray FullSubMapName "/"%char) - 1)
    = Ok (SubMapName FullSubMapName)
    /\ FullSubMapName = String.append dir (SubMapName FullSubMapName)
    /\ occurs "/"%char (SubMapName FullSubMapName) = false
    /\ (dir = "" \/ exists dir', dir = String.append dir' "/")
    /\ join "/"%char (ParseIntoArray FullSubMapName "/"%char)
       = FullSubMapName.
Proof.
  intros Hne.
  assert (HP : ParseIntoArray FullSubMapName "/"%char
               = split_at "/"%char FullSubMapName)
    by (destruct FullSubMapName; [congruence | reflexivity]).
  assert (Hcons : split_at "/"%char FullSubMapName <> [])
    by (destruct (split_at_cons "/"%char FullSubMapName) as [p [ps ->]];
        discriminate).
  destruct (join_last "/"%char (split_at "/"%char FullSubMapName) Hcons)
    as [dir [Hjoin Hdir]].
  rewrite split_at_join in Hjoin.
  exists dir. split; [apply SubMapName_index; exact Hne|].
  split; [exact Hjoin|]. split.
  - apply (Forall_last (fun p => occurs "/"%char p = false)); [exact Hcons|].
    apply split_at_pieces.
  - split; [exact Hdir|]. rewrite HP. apply split_at_join.
Qed.

Lemma short_name_is_last_component_witness :
  exists dir,
    TArray_index
      (ParseIntoArray "/Game/Carla/Maps/Sublevels/Town01_Decals" "/"%char)
      (Num (ParseIntoArray "/Game/Carla/Maps/Sublevels/Town01_Decals"
                           "/"%char) - 1)
    = Ok "Town01_Decals"
    /\ "/Game/Carla/Maps/Sublevels/Town01_Decals"
       = String.append dir "Town01_Decals".
Proof.
  destruct (short_name_is_last_component
              "/Game/Carla/Maps/Sublevels/Town01_Decals")
    as [dir [Hidx [Hfull _]]]; [discriminate|].
  exists dir. split; [exact Hidx | exact Hfull].
Defined.

(** ** Sequences of operations *)

Lemma set_PendingLevelsToLoad_same (s : GameMode) :
  set_PendingLevelsToLoad (PendingLevelsToLoad s) s = s.
Proof. destruct s. reflexivity. Qed.

Lemma set_PendingLevelsToUnLoad_same (s : GameMode) :
  set_PendingLevelsToUnLoad (PendingLevelsToUnLoad s) s = s.
Proof. destruct s. reflexivity. Qed.

Lemma decrement_field_of (ctype : CounterType) (v : Z) :
  - 2 ^ 31 < v <= 2 ^ 31 ->
  decrement ctype (field_of ctype v) = field_of ctype (v - 1).
Proof.
  intros Hv. destruct ctype; cbn [decrement field_of].
  - apply wrap_id.
    unfold Int32.in_range, Int32.min_signed, Int32.max_signed. lia.
  - unfold Int32.uwrap. apply Zminus_mod_idemp_l.
Qed.

Lemma field_of_zero (ctype : CounterType) (v : Z) :
  - 2 ^ 32 < v < 2 ^ 32 -> (field_of ctype v =? 0) = (v =? 0).
Proof.
  intros Hv. destruct ctype; cbn [field_of]; [reflexivity|].
  destruct (Z.eqb_spec v 0) as [->|Hne]; [reflexivity|].
  apply Z.eqb_neq. intros Hmod.
  destruct (Z.lt_ge_cases v 0) as [Hneg|Hpos].
  - assert (H : (v + 1 * 2 ^ 32) mod 2 ^ 32 = v + 2 ^ 32)
      by (apply Z.mod_small; lia).
    rewrite Z.mod_add in H by lia. lia.
  - rewrite Z.mod_small in Hmod by lia. lia.
Qed.

Lemma field_of_nonneg (ctype : CounterType) (v : Z) :
  0 <= v < 2 ^ 32 -> field_of ctype v = v.
Proof.
  intros Hv. destruct ctype; cbn [field_of]; [reflexivity|].
  apply Z.mod_small. exact Hv.
Qed.

Section OpFacts.

Variable ctype : CounterType.
Variable layers : MapLayerDecl.
Variable Contains : string -> string -> bool.
Variable W : World.

Lemma perform_all_app (a b : list Op) :
  forall (s s1 s2 : GameMode) (l1 l2 : list Call),
    perform_all ctype layers Contains W a s = Ok (tt, s1, l1) ->
    perform_all ctype layers Contains W b s1 = Ok (tt, s2, l2) ->
    perform_all ctype layers Contains W (a ++ b) s = Ok (tt, s2, l1 ++ l2).
Proof.
  induction a as [|o a IH]; intros s s1 s2 l1 l2 Ha Hb.
  - cbn [perform_all] in Ha. unfold ret in Ha. apply Ok_run_inj in Ha.
    destruct Ha as [<- <-]. exact Hb.
  - cbn [app]. cbn [perform_all] in Ha. unfold bind in Ha.
    destruct (perform ctype layers Contains W o s) as [[[[] s0] l0]| |] eqn:Ho;
      try discriminate.
    destruct (perform_all ctype layers Contains W a s0)
      as [[[[] s1'] l1']| |] eqn:Ha'; try discriminate.
    apply Ok_run_inj in Ha. destruct Ha as [<- <-].
    rewrite <- app_assoc. eapply perform_all_cons; [exact Ho|].
    eapply IH; eassumption.
Qed.

Hypothesis Hnamed : named_levels W.

(** What one operation does to the gate, and what it calls while the gate
    is not set. *)
Lemma perform_gate (o : Op) (s : GameMode) :
  exists s' l,
    perform ctype layers Contains W o s = Ok (tt, s', l)
    /\ ReadyToRegisterObjects s' = ReadyToRegisterObjects s || is_Begin o
    /\ (ReadyToRegisterObjects s = false -> is_Begin o = false ->
        Forall (fun c => is_streaming c = true) l).
Proof.
  destruct o as [m|m| | |]; cbn [perform is_Begin].
  - destruct (LoadMapLayer_spec layers Contains W Hnamed m s) as [r [_ H]].
    rewrite H. do 2 eexists. split; [reflexivity|].
    split; [cbn; now rewrite orb_false_r|].
    intros _ _. apply stream_calls_names. reflexivity.
  - destruct (UnLoadMapLayer_spec layers Contains W Hnamed m s) as [r [_ H]].
    rewrite H. do 2 eexists. split; [reflexivity|].
    split; [cbn; now rewrite orb_false_r|].
    intros _ _. apply stream_calls_names. reflexivity.
  - rewrite OnLoadStreamLevel_spec. do 2 eexists. split; [reflexivity|].
    split; [cbn; now rewrite orb_false_r|].
    intros -> _. constructor.
  - rewrite OnUnloadStreamLevel_spec. do 2 eexists. split; [reflexivity|].
    split; [cbn; now rewrite orb_false_r|].
    intros -> _. constructor.
  - destruct (BeginPlay_spec layers Contains W Hnamed s) as [r [_ H]].
    rewrite H. do 2 eexists. split; [reflexivity|].
    split; [cbn; now rewrite orb_true_r|].
    intros _ Hb. discriminate Hb.
Qed.

Lemma perform_all_gate (os : list Op) :
  forall s,
  exists s' l,
    perform_all ctype layers Contains W os s = Ok (tt, s', l)
    /\ ReadyToRegisterObjects s'
       = ReadyToRegisterObjects s || existsb is_Begin os
    /\ (ReadyToRegisterObjects s = false -> existsb is_Begin os = false ->
        Forall (fun c => is_streaming c = true) l).
Proof.
  induction os as [|o os IH]; intros s.
  - exists s, []. split; [reflexivity|]. split.
    + cbn. now rewrite orb_false_r.
    + intros _ _. constructor.
  - destruct (perform_gate o s) as [s1 [l1 [H1 [Hr1 Hc1]]]].
    destruct (IH s1) as [s2 [l2 [H2 [Hr2 Hc2]]]].
    exists s2, (l1 ++ l2). split; [eapply perform_all_cons; eassumption|].
    split.
    + rewrite Hr2, Hr1. cbn [existsb]. now rewrite orb_assoc.
    + intros Hs Hb. cbn [existsb] in Hb. apply orb_false_iff in Hb.
      destruct Hb as [Hbo Hbos]. apply Forall_app. split.
      * apply Hc1; assumption.
      * apply Hc2; [|exact Hbos]. rewrite Hr1, Hs, Hbo. reflexivity.
Qed.

End OpFacts.

(** The ready gate is a latch set by [BeginPlay] alone.  With every level
    named, any sequence of requests, completions and [BeginPlay]s runs to
    the end, and the gate is set afterwards exactly when it was set before
    or the sequence contains a [BeginPlay]: no operation clears it and no
    other operation sets it. *)
Theorem ready_gate_is_a_latch (ctype : CounterType) (layers : MapLayerDecl)
        (Contains : string -> string -> bool) (W : World)
        (os : list Op) (s : GameMode) :
  named_levels W ->
  exists s' l,
    perform_all ctype layers Contains W os s = Ok (tt, s', l)
    /\ ReadyToRegisterObjects s'
       = ReadyToRegisterObjects s || existsb is_Begin os.
Proof.
  intros Hnamed.
  destruct (perform_all_gate ctype layers Contains W Hnamed os s)
    as [s' [l [Hrun [Hr _]]]].
  exists s', l. split; assumption.
Qed.

Lemma ready_gate_is_a_latch_witness :
  exists s' l,
    perform_all CounterInt Demo.layers Demo.Contains Demo.town
      [RequestLoad 6; Begin; LoadDone; RequestUnload 1; UnloadDone; LoadDone]
      initial
    = Ok (tt, s', l)
    /\ ReadyToRegisterObjects s' = true.
Proof.
  exact (ready_gate_is_a_latch CounterInt Demo.layers Demo.Contains Demo.town
           [RequestLoad 6; Begin; LoadDone; RequestUnload 1; UnloadDone;
            LoadDone]
           initial Demo_town_named).
Defined.

(** Before the gate is set nothing is registered or tagged: from a state
    with the gate unset, any sequence of requests and completions without a
    [BeginPlay] makes streaming calls only, however the counters move, and
    leaves the gate unset. *)
Theorem nothing_registered_before_ready (ctype : CounterType)
        (layers : MapLayerDecl) (Contains : string -> string -> bool)
        (W : World) (os : list Op) (s : GameMode) :
  named_levels W ->
  ReadyToRegisterObjects s = false ->
  existsb is_Begin os = false ->
  exists s' l,
    perform_all ctype layers Contains W os s = Ok (tt, s', l)
    /\ ReadyToRegisterObjects s' = false
    /\ Forall (fun c => is_streaming c = true) l
    /\ count is_registration l = 0%nat
    /\ count is_tagging l = 0%nat
    /\ count is_actor_scan l = 0%nat.
Proof.
  intros Hnamed Hs Hb.
  destruct (perform_all_gate ctype layers Contains W Hnamed os s)
    as [s' [l [Hrun [Hr Hc]]]].
  exists s', l. split; [exact Hrun|].
  split; [rewrite Hr, Hs, Hb; reflexivity|].
  specialize (Hc Hs Hb). split; [exact Hc|].
  unfold count. clear Hrun.
  induction Hc as [|c l Hc _ IH]; [repeat split|].
  destruct c; try discriminate Hc; cbn [filter is_registration is_tagging
                                         is_actor_scan]; exact IH.
Qed.

Lemma nothing_registered_before_ready_witness :
  exists s' l,
    perform_all CounterInt Demo.layers Demo.Contains Demo.town
      [RequestLoad 6; LoadDone; LoadDone; LoadDone; RequestUnload 1;
       UnloadDone]
      initial
    = Ok (tt, s', l)
    /\ ReadyToRegisterObjects s' = false
    /\ count is_registration l = 0%nat.
Proof.
  destruct (nothing_registered_before_ready CounterInt Demo.layers
              Demo.Contains Demo.town
              [RequestLoad 6; LoadDone; LoadDone; LoadDone; RequestUnload 1;
               UnloadDone]
              initial Demo_town_named eq_refl eq_refl)
    as [s' [l [Hrun [Hr [_ [Hreg _]]]]]].
  exists s', l. repeat split; assumption.
Defined.

(** ** Completions beyond the count *)

Section Completions.

Variable ctype : CounterType.
Variable layers : MapLayerDecl.
Variable Contains : string -> string -> bool.
Variable W : World.

(** [k] load completions from a count of [v], gate set: the pass is made
    when the count passes through 0, and only then. *)
Lemma load_completions_from (k : nat) :
  forall (v : Z) (s : GameMode),
    ReadyToRegisterObjects s = true ->
    PendingLevelsToLoad s = field_of ctype v ->
    v < 2 ^ 31 -> - 2 ^ 31 < v - Z.of_nat k ->
    perform_all ctype layers Contains W (repeat LoadDone k) s
    = Ok (tt, set_PendingLevelsToLoad (field_of ctype (v - Z.of_nat k)) s,
          if (1 <=? v) && (v <=? Z.of_nat k) then registerAndTag else []).
Proof.
  induction k as [|k IH]; intros v s Hready Hv Hhi Hlo.
  - cbn [repeat perform_all]. unfold ret.
    replace (v - Z.of_nat 0) with v by lia.
    rewrite <- Hv, set_PendingLevelsToLoad_same.
    replace ((1 <=? v) && (v <=? Z.of_nat 0)) with false
      by (symmetry; apply andb_false_iff;
          destruct (Z.leb_spec 1 v); [right; apply Z.leb_gt; lia | now left]).
    reflexivity.
  - cbn [repeat].
    pose proof (OnLoadStreamLevel_spec ctype s) as Hstep.
    rewrite Hready, Hv, decrement_field_of, field_of_zero in Hstep by lia.
    cbn [andb] in Hstep.
    specialize (IH (v - 1)
                   (set_PendingLevelsToLoad (field_of ctype (v - 1)) s)
                   Hready eq_refl ltac:(lia) ltac:(lia)).
    rewrite (perform_all_cons ctype layers Contains W LoadDone _ _ _ _ _ _
               Hstep IH).
    f_equal. f_equal; [f_equal|].
    + replace (v - 1 - Z.of_nat k) with (v - Z.of_nat (S k)) by lia.
      reflexivity.
    + destruct (Z.eqb_spec (v - 1) 0) as [H1|H1].
      * replace ((1 <=? v - 1) && (v - 1 <=? Z.of_nat k)) with false
          by (symmetry; apply andb_false_iff; left; apply Z.leb_gt; lia).
        replace ((1 <=? v) && (v <=? Z.of_nat (S k))) with true
          by (symmetry; apply andb_true_iff; split; apply Z.leb_le; lia).
        reflexivity.
      * cbn [app].
        destruct (Z.leb_spec 1 (v - 1)), (Z.leb_spec (v - 1) (Z.of_nat k)),
          (Z.leb_spec 1 v), (Z.leb_spec v (Z.of_nat (S k)));
          cbn [andb]; solve [reflexivity | lia].
Qed.

Lemma unload_completions_from (k : nat) :
  forall (v : Z) (s : GameMode),
    ReadyToRegisterObjects s = true ->
    PendingLevelsToUnLoad s = field_of ctype v ->
    v < 2 ^ 31 -> - 2 ^ 31 < v - Z.of_nat k ->
    perform_all ctype layers Contains W (repeat UnloadDone k) s
    = Ok (tt, set_PendingLevelsToUnLoad (field_of ctype (v - Z.of_nat k)) s,
          if (1 <=? v) && (v <=? Z.of_nat k) then registerOnly else []).
Proof.
  induction k as [|k IH]; intros v s Hready Hv Hhi Hlo.
  - cbn [repeat perform_all]. unfold ret.
    replace (v - Z.of_nat 0) with v by lia.
    rewrite <- Hv, set_PendingLevelsToUnLoad_same.
    replace ((1 <=? v) && (v <=? Z.of_nat 0)) with false
      by (symmetry; apply andb_false_iff;
          destruct (Z.leb_spec 1 v); [right; apply Z.leb_gt; lia | now left]).
    reflexivity.
  - cbn [repeat].
    pose proof (OnUnloadStreamLevel_spec ctype s) as Hstep.
    rewrite Hready, Hv, decrement_field_of, field_of_zero in Hstep by lia.
    cbn [andb] in Hstep.
    specialize (IH (v - 1)
                   (set_PendingLevelsToUnLoad (field_of ctype (v - 1)) s)
                   Hready eq_refl ltac:(lia) ltac:(lia)).
    rewrite (perform_all_cons ctype layers Contains W UnloadDone _ _ _ _ _ _
               Hstep IH).
    f_equal. f_equal; [f_equal|].
    + replace (v - 1 - Z.of_nat k) with (v - Z.of_nat (S k)) by lia.
      reflexivity.
    + destruct (Z.eqb_spec (v - 1) 0) as [H1|H1].
      * replace ((1 <=? v - 1) && (v - 1 <=? Z.of_nat k)) with false
          by (symmetry; apply andb_false_iff; left; apply Z.leb_gt; lia).
        replace ((1 <=? v) && (v <=? Z.of_nat (S k))) with true
          by (symmetry; apply andb_true_iff; split; apply Z.leb_le; lia).
        reflexivity.
      * cbn [app].
        destruct (Z.leb_spec 1 (v - 1)), (Z.leb_spec (v - 1) (Z.of_nat k)),
          (Z.leb_spec 1 v), (Z.leb_spec v (Z.of_nat (S k)));
          cbn [andb]; solve [reflexivity | lia].
Qed.

End Completions.

Lemma perform_all_one (ctype : CounterType) (layers : MapLayerDecl)
      (Contains : string -> string -> bool) (W : World)
      (o : Op) (s s1 : GameMode) (l1 : list Call) :
  perform ctype layers Contains W o s = Ok (tt, s1, l1) ->
  perform_all ctype layers Contains W [o] s = Ok (tt, s1, l1).
Proof.
  intros Ho. cbn [perform_all]. unfold bind, ret. rewrite Ho.
  rewrite app_nil_r. reflexivity.
Qed.

Lemma field_of_0 (ctype : CounterType) : field_of ctype 0 = 0.
Proof. destruct ctype; reflexivity. Qed.

Lemma leb_range (v k : Z) : 1 <= v <= k -> (1 <=? v) && (v <=? k) = true.
Proof. intros H. apply andb_true_iff. split; apply Z.leb_le; lia. Qed.

Lemma leb_below (v k : Z) : v <= 0 -> (1 <=? v) && (v <=? k) = false.
Proof. intros H. apply andb_false_iff. left. apply Z.leb_gt. lia. Qed.

(** Completions that arrive after a batch has settled never register
    again.  With the gate set and n >= 1 operations counted, the n-th
    completion makes the pass, and j further completions of the same
    direction (fewer than 2^31) make no call: the whole run makes exactly
    the calls of one pass, and the field is left at -j (at 2^32 - j if it
    is unsigned).  This holds for loads, with registration and tagging,
    and for unloads, with registration only. *)
Theorem extra_completions_never_register_again (ctype : CounterType)
        (layers : MapLayerDecl) (Contains : string -> string -> bool)
        (W : World) (s : GameMode) (n j : nat) :
  ReadyToRegisterObjects s = true ->
  (1 <= n)%nat ->
  Z.of_nat n < 2 ^ 31 ->
  Z.of_nat j < 2 ^ 31 ->
  (PendingLevelsToLoad s = Z.of_nat n ->
   perform_all ctype layers Contains W (repeat LoadDone n) s
   = Ok (tt, set_PendingLevelsToLoad 0 s, registerAndTag)
   /\ perform_all ctype layers Contains W (repeat LoadDone (n + j)) s
      = Ok (tt, set_PendingLevelsToLoad (field_of ctype (- Z.of_nat j)) s,
            registerAndTag))
  /\ (PendingLevelsToUnLoad s = Z.of_nat n ->
      perform_all ctype layers Contains W (repeat UnloadDone n) s
      = Ok (tt, set_PendingLevelsToUnLoad 0 s, registerOnly)
      /\ perform_all ctype layers Contains W (repeat UnloadDone (n + j)) s
         = Ok (tt, set_PendingLevelsToUnLoad (field_of ctype (- Z.of_nat j)) s,
               registerOnly)).
Proof.
  intros Hready Hn Hfit Hj. split; intros Hc.
  - split.
    + rewrite (load_completions_from ctype layers Contains W n (Z.of_nat n) s)
        by (try rewrite field_of_nonneg; lia || assumption).
      rewrite Z.sub_diag, field_of_0, leb_range by lia. reflexivity.
    + rewrite (load_completions_from ctype layers Contains W (n + j)
                 (Z.of_nat n) s)
        by (try rewrite field_of_nonneg; lia || assumption).
      rewrite leb_range by lia.
      replace (Z.of_nat n - Z.of_nat (n + j)) with (- Z.of_nat j) by lia.
      reflexivity.
  - split.
    + rewrite (unload_completions_from ctype layers Contains W n (Z.of_nat n) s)
        by (try rewrite field_of_nonneg; lia || assumption).
      rewrite Z.sub_diag, field_of_0, leb_range by lia. reflexivity.
    + rewrite (unload_completions_from ctype layers Contains W (n + j)
                 (Z.of_nat n) s)
        by (try rewrite field_of_nonneg; lia || assumption).
      rewrite leb_range by lia.
      replace (Z.of_nat n - Z.of_nat (n + j)) with (- Z.of_nat j) by lia.
      reflexivity.
Qed.

Lemma extra_completions_never_register_again_witness :
  perform_all CounterInt Demo.layers Demo.Contains Demo.town
    (repeat LoadDone (2 + 3)) two_loads_pending
  = Ok (tt, set_PendingLevelsToLoad (-3) two_loads_pending, registerAndTag).
Proof.
  destruct (extra_completions_never_register_again CounterInt Demo.layers
              Demo.Contains Demo.town two_loads_pending 2 3
              eq_refl ltac:(lia) eq_refl eq_refl)
    as [Hload _].
  exact (proj2 (Hload eq_refl)).
Defined.

(** A load request issued while an earlier one is in flight discards the
    earlier count.  After two requests resolving to [rA] and then [rB]
    (not empty), the pass is made by the completion number [length rB],
    whichever operations have completed by then; the [length rA]
    completions still to come make no call and leave the field at
    [- length rA]. *)
Theorem second_load_request_discards_first (ctype : CounterType)
        (layers : MapLayerDecl) (Contains : string -> string -> bool)
        (W : World) (s : GameMode) (mA mB : Z) (rA rB : list FName) :
  ReadyToRegisterObjects s = true ->
  ConvertMapLayerMaskToMapNames layers Contains W mA [] = Ok rA ->
  ConvertMapLayerMaskToMapNames layers Contains W mB [] = Ok rB ->
  rB <> [] ->
  Num rA < 2 ^ 31 ->
  Num rB < 2 ^ 31 ->
  perform_all ctype layers Contains W
    ([RequestLoad mA; RequestLoad mB] ++ repeat LoadDone (List.length rB)) s
  = Ok (tt, set_PendingLevelsToLoad 0 s,
        stream_calls LoadStreamLevel rA 1
          ++ stream_calls LoadStreamLevel rB 1 ++ registerAndTag)
  /\ perform_all ctype layers Contains W
       (repeat LoadDone (List.length rA)) (set_PendingLevelsToLoad 0 s)
     = Ok (tt,
           set_PendingLevelsToLoad
             (field_of ctype (- Z.of_nat (List.length rA))) s,
           []).
Proof.
  intros Hready HA HB Hne HfitA HfitB. unfold Num in HfitA, HfitB.
  assert (HlenB : (1 <= List.length rB)%nat)
    by (destruct rB; [congruence | cbn; lia]).
  assert (HreqA : perform ctype layers Contains W (RequestLoad mA) s
                  = Ok (tt, set_PendingLevelsToLoad (Num rA) s,
                        stream_calls LoadStreamLevel rA 1)).
  { cbn [perform]. unfold LoadMapLayer, bind, lift, modify.
    rewrite HA, load_each_spec. reflexivity. }
  assert (HreqB : perform ctype layers Contains W (RequestLoad mB)
                    (set_PendingLevelsToLoad (Num rA) s)
                  = Ok (tt, set_PendingLevelsToLoad (Num rB) s,
                        stream_calls LoadStreamLevel rB 1)).
  { cbn [perform]. unfold LoadMapLayer, bind, lift, modify.
    rewrite HB, load_each_spec. reflexivity. }
  split.
  - change ([RequestLoad mA; RequestLoad mB] ++ repeat LoadDone (List.length rB))
      with (RequestLoad mA :: RequestLoad mB
              :: repeat LoadDone (List.length rB)).
    eapply perform_all_cons; [exact HreqA|].
    eapply perform_all_cons; [exact HreqB|].
    rewrite (load_completions_from ctype layers Contains W (List.length rB)
               (Num rB) (set_PendingLevelsToLoad (Num rB) s));
      unfold Num;
      try (cbn [set_PendingLevelsToLoad PendingLevelsToLoad
                ReadyToRegisterObjects];
           try rewrite field_of_nonneg; lia || assumption).
    rewrite Z.sub_diag, field_of_0, leb_range by lia. reflexivity.
  - rewrite (load_completions_from ctype layers Contains W (List.length rA)
               0 (set_PendingLevelsToLoad 0 s));
      try (cbn [set_PendingLevelsToLoad PendingLevelsToLoad
                ReadyToRegisterObjects];
           try rewrite field_of_0; lia || assumption).
    rewrite leb_below by lia. reflexivity.
Qed.

Lemma second_load_request_discards_first_witness :
  perform_all CounterInt Demo.layers Demo.Contains Demo.town
    ([RequestLoad 2; RequestLoad 5] ++ repeat LoadDone 2) ready_idle
  = Ok (tt, ready_idle,
        [LoadStreamLevel "Town01_Decals" 1;
         LoadStreamLevel "Town01_Foliage" 1;
         LoadStreamLevel "Town01_Buildings" 2;
         GetAllActorsOfClass; RegisterObjects; TagActorsInLevel]).
Proof.
  exact (proj1 (second_load_request_discards_first CounterInt Demo.layers
                  Demo.Contains Demo.town ready_idle 2 5
                  ["Town01_Decals"] ["Town01_Foliage"; "Town01_Buildings"]
                  eq_refl eq_refl eq_refl ltac:(discriminate)
                  eq_refl eq_refl)).
Defined.

(** Loading a mask and, once the loads have completed, unloading it again
    is balanced.  With the gate set and the mask resolving to n >= 1
    sub-levels, the request, its n completions, the unload request and its
    n completions leave both counters at 0; the engine is asked to load and
    then to unload the same names in the same order, with one registration
    and tagging pass after the loads and one registration-only pass after
    the unloads. *)
Theorem load_then_unload_is_balanced (ctype : CounterType)
        (layers : MapLayerDecl) (Contains : string -> string -> bool)
        (W : World) (s : GameMode) (MapLayers : Z) (resolved : list FName) :
  ReadyToRegisterObjects s = true ->
  ConvertMapLayerMaskToMapNames layers Contains W MapLayers [] = Ok resolved ->
  resolved <> [] ->
  Num resolved < 2 ^ 31 ->
  perform_all ctype layers Contains W
    ([RequestLoad MapLayers] ++ repeat LoadDone (List.length resolved)
       ++ [RequestUnload MapLayers]
       ++ repeat UnloadDone (List.length resolved)) s
  = Ok (tt, set_PendingLevelsToUnLoad 0 (set_PendingLevelsToLoad 0 s),
        stream_calls LoadStreamLevel resolved 1 ++ registerAndTag
          ++ stream_calls UnloadStreamLevel resolved 1 ++ registerOnly).
Proof.
  intros Hready Hres Hne Hfit. unfold Num in Hfit.
  assert (Hlen : (1 <= List.length resolved)%nat)
    by (destruct resolved; [congruence | cbn; lia]).
  assert (Hload : perform_all ctype layers Contains W [RequestLoad MapLayers] s
                  = Ok (tt, set_PendingLevelsToLoad (Num resolved) s,
                        stream_calls LoadStreamLevel resolved 1)).
  { apply perform_all_one. cbn [perform].
    unfold LoadMapLayer, bind, lift, modify.
    rewrite Hres, load_each_spec. reflexivity. }
  assert (Hloaded : perform_all ctype layers Contains W
                      (repeat LoadDone (List.length resolved))
                      (set_PendingLevelsToLoad (Num resolved) s)
                    = Ok (tt, set_PendingLevelsToLoad 0 s, registerAndTag)).
  { rewrite (load_completions_from ctype layers Contains W
               (List.length resolved) (Num resolved)
               (set_PendingLevelsToLoad (Num resolved) s));
      unfold Num;
      try (cbn [set_PendingLevelsToLoad PendingLevelsToLoad
                ReadyToRegisterObjects];
           try rewrite field_of_nonneg; lia || assumption).
    rewrite Z.sub_diag, field_of_0, leb_range by lia. reflexivity. }
  assert (Hunload : perform_all ctype layers Contains W
                      [RequestUnload MapLayers] (set_PendingLevelsToLoad 0 s)
                    = Ok (tt, set_PendingLevelsToUnLoad (Num resolved)
                                (set_PendingLevelsToLoad 0 s),
                          stream_calls UnloadStreamLevel resolved 1)).
  { apply perform_all_one. cbn [perform].
    unfold UnLoadMapLayer, bind, lift, modify.
    rewrite Hres, unload_each_spec. reflexivity. }
  assert (Hunloaded : perform_all ctype layers Contains W
                        (repeat UnloadDone (List.length resolved))
                        (set_PendingLevelsToUnLoad (Num resolved)
                           (set_PendingLevelsToLoad 0 s))
                      = Ok (tt, set_PendingLevelsToUnLoad 0
                                  (set_PendingLevelsToLoad 0 s),
                            registerOnly)).
  { rewrite (unload_completions_from ctype layers Contains W
               (List.length resolved) (Num resolved)
               (set_PendingLevelsToUnLoad (Num resolved)
                  (set_PendingLevelsToLoad 0 s)));
      unfold Num;
      try (cbn [set_PendingLevelsToUnLoad set_PendingLevelsToLoad
                PendingLevelsToUnLoad ReadyToRegisterObjects];
           try rewrite field_of_nonneg; lia || assumption).
    rewrite Z.sub_diag, field_of_0, leb_range by lia. reflexivity. }
  eapply perform_all_app; [exact Hload|].
  eapply perform_all_app; [exact Hloaded|].
  eapply perform_all_app; [exact Hunload | exact Hunloaded].
Qed.

Lemma load_then_unload_is_balanced_witness :
  perform_all CounterInt Demo.layers Demo.Contains Demo.town
    ([RequestLoad 6] ++ repeat LoadDone 2 ++ [RequestUnload 6]
       ++ repeat UnloadDone 2) ready_idle
  = Ok (tt, ready_idle,
        [LoadStreamLevel "Town01_Decals" 1;
         LoadStreamLevel "Town01_Foliage" 2;
         GetAllActorsOfClass; RegisterObjects; TagActorsInLevel;
         UnloadStreamLevel "Town01_Decals" 1;
         UnloadStreamLevel "Town01_Foliage" 2;
         GetAllActorsOfClass; RegisterObjects]).
Proof.
  exact (load_then_unload_is_balanced CounterInt Demo.layers Demo.Contains
           Demo.town ready_idle 6 ["Town01_Decals"; "Town01_Foliage"]
           eq_refl eq_refl ltac:(discriminate) eq_refl).
Defined.

(** ** An unload batch settles with one registration-only pass *)

Section UnloadBatch.

Variable ctype : CounterType.
Variable layers : MapLayerDecl.
Variable Contains : string -> string -> bool.
Variable W : World.
Hypothesis Hnamed : named_levels W.

(** The operations of the load direction, [BeginPlay] included, leave the
    pending-unload counter alone and do not clear the gate. *)
Lemma perform_load_direction (o : Op) (s : GameMode) :
  is_unload_request o = false ->
  o <> UnloadDone ->
  exists s' l,
    perform ctype layers Contains W o s = Ok (tt, s', l)
    /\ PendingLevelsToUnLoad s' = PendingLevelsToUnLoad s
    /\ (ReadyToRegisterObjects s = true -> ReadyToRegisterObjects s' = true).
Proof.
  intros Hreq Hne.
  destruct o as [m|m| | |]; try discriminate; try congruence; cbn [perform].
  - destruct (LoadMapLayer_spec layers Contains W Hnamed m s) as [r [_ H]].
    rewrite H. do 2 eexists. split; [reflexivity|]. split; [reflexivity|].
    intros Hr. exact Hr.
  - rewrite OnLoadStreamLevel_spec. do 2 eexists.
    split; [reflexivity|]. split; [reflexivity|]. intros Hr. exact Hr.
  - destruct (BeginPlay_spec layers Contains W Hnamed s) as [r [_ H]].
    rewrite H. do 2 eexists. split; [reflexivity|]. split; [reflexivity|].
    intros _. reflexivity.
Qed.

Lemma perform_all_load_direction (os : list Op) :
  forall s,
    forallb (fun o => negb (is_unload_request o)) os = true ->
    unload_completions os = 0%nat ->
    exists s' l,
      perform_all ctype layers Contains W os s = Ok (tt, s', l)
      /\ PendingLevelsToUnLoad s' = PendingLevelsToUnLoad s.
Proof.
  induction os as [|o os IH]; intros s Hreq Hnone.
  - exists s, []. split; reflexivity.
  - cbn [forallb] in Hreq. apply andb_true_iff in Hreq.
    destruct Hreq as [Ho Hos]. apply negb_true_iff in Ho.
    assert (Hne : o <> UnloadDone).
    { intros ->. unfold unload_completions in Hnone. cbn in Hnone. lia. }
    assert (Hrest : unload_completions os = 0%nat).
    { unfold unload_completions in *. cbn [filter] in Hnone.
      destruct o; try exact Hnone. congruence. }
    destruct (perform_load_direction o s Ho Hne) as [s1 [l1 [H1 [Hc1 _]]]].
    destruct (IH s1 Hos Hrest) as [s2 [l2 [H2 Hc2]]].
    exists s2, (l1 ++ l2).
    split; [eapply perform_all_cons; eassumption | congruence].
Qed.

Lemma unload_settles_once_cons (o : Op) (os : list Op) (s s' : GameMode)
      (l1 : list Call) :
  perform ctype layers Contains W o s = Ok (tt, s', l1) ->
  (o = UnloadDone ->
   1 < PendingLevelsToUnLoad s
   /\ OnUnloadStreamLevel ctype s
      = Ok (tt, set_PendingLevelsToUnLoad (PendingLevelsToUnLoad s - 1) s,
            [])) ->
  unload_settles_once ctype layers Contains W os s' ->
  unload_settles_once ctype layers Contains W (o :: os) s.
Proof.
  intros Ho Hquiet
         (before & after & s2 & s3 & s4 & lb & la &
          Hsplit & Hafter & Hbefore & Hprefix & Hone & Hfire & Hzero &
          Hrest & Hend & Hrun).
  assert (Hprefix' : forall p q s0 l,
             o :: before = p ++ UnloadDone :: q ->
             perform_all ctype layers Contains W p s = Ok (tt, s0, l) ->
             1 < PendingLevelsToUnLoad s0
             /\ OnUnloadStreamLevel ctype s0
                = Ok (tt,
                      set_PendingLevelsToUnLoad
                        (PendingLevelsToUnLoad s0 - 1) s0,
                      [])).
  { intros p q s0 l Hpq Hp. destruct p as [|o0 p]; cbn [app] in Hpq.
    - cbn [perform_all] in Hp. unfold ret in Hp. apply Ok_run_inj in Hp.
      destruct Hp as [<- _]. apply Hquiet. congruence.
    - injection Hpq as <- Hbq.
      destruct (perform_all_cons_inv ctype layers Contains W o p s s' s0 l1 l
                  Ho Hp) as [l2 [Hp2 _]].
      exact (Hprefix p q s0 l2 Hbq Hp2). }
  exists (o :: before), after, s2, s3, s4, (l1 ++ lb), la.
  split; [rewrite Hsplit; reflexivity|].
  split; [exact Hafter|].
  split; [eapply perform_all_cons; eassumption|].
  split; [exact Hprefix'|].
  split; [exact Hone|]. split; [exact Hfire|]. split; [exact Hzero|].
  split; [exact Hrest|]. split; [exact Hend|].
  rewrite <- app_assoc. eapply perform_all_cons; eassumption.
Qed.

Lemma unload_batch_settles (os : list Op) :
  forall s1,
    ReadyToRegisterObjects s1 = true ->
    1 <= PendingLevelsToUnLoad s1 <= Int32.max_signed ->
    forallb (fun o => negb (is_unload_request o)) os = true ->
    Z.of_nat (unload_completions os) = PendingLevelsToUnLoad s1 ->
    unload_settles_once ctype layers Contains W os s1.
Proof.
  unfold Int32.max_signed.
  induction os as [|o os IH]; intros s1 Hready Hc Hreq Hn.
  - unfold unload_completions in Hn. simpl in Hn. lia.
  - cbn [forallb] in Hreq. apply andb_true_iff in Hreq.
    destruct Hreq as [Ho Hos]. apply negb_true_iff in Ho.
    assert (Hd : o = UnloadDone \/ o <> UnloadDone)
      by (destruct o; solve [left; reflexivity | right; discriminate]).
    destruct Hd as [->|Hne].
    + assert (Hn' : Z.of_nat (unload_completions os)
                    = PendingLevelsToUnLoad s1 - 1).
      { unfold unload_completions in *. cbn [filter List.length] in Hn. lia. }
      pose proof (OnUnloadStreamLevel_spec ctype s1) as Hstep.
      rewrite decrement_pred, Hready in Hstep by lia. cbn [andb] in Hstep.
      destruct (Z.eq_dec (PendingLevelsToUnLoad s1) 1) as [Hone|Hmore].
      * rewrite Hone in Hstep.
        cbn [Z.sub Z.eqb Z.pos_sub Z.add Z.opp] in Hstep.
        assert (Hnone : unload_completions os = 0%nat) by lia.
        destruct (perform_all_load_direction os
                    (set_PendingLevelsToUnLoad 0 s1) Hos Hnone)
          as [s4 [la [Hrun Hend]]].
        exists [], os, s1, (set_PendingLevelsToUnLoad 0 s1), s4, [], la.
        split; [reflexivity|]. split; [exact Hnone|].
        split; [reflexivity|].
        split.
        { intros p q s l Hpq _. destruct p; discriminate Hpq. }
        split; [exact Hone|]. split; [exact Hstep|].
        split; [reflexivity|]. split; [exact Hrun|]. split; [exact Hend|].
        cbn [app].
        eapply (perform_all_cons ctype layers Contains W UnloadDone);
          [exact Hstep | exact Hrun].
      * destruct (Z.eqb_spec (PendingLevelsToUnLoad s1 - 1) 0) as [|_]; [lia|].
        eapply unload_settles_once_cons.
        -- exact Hstep.
        -- intros _. split; [lia | exact Hstep].
        -- apply IH; cbn [set_PendingLevelsToUnLoad PendingLevelsToUnLoad
                            ReadyToRegisterObjects];
             [assumption | lia | assumption | lia].
    + destruct (perform_load_direction o s1 Ho Hne)
        as [s' [l1 [Hstep [Hc' Hr']]]].
      assert (Hn' : unload_completions (o :: os) = unload_completions os).
      { unfold unload_completions. cbn [filter].
        destruct o; try reflexivity. congruence. }
      eapply unload_settles_once_cons.
      * exact Hstep.
      * intros Heq. congruence.
      * apply IH; [apply Hr'; exact Hready | lia | assumption | lia].
Qed.

End UnloadBatch.

(** An unload batch of m >= 1 sub-levels with the gate set: whatever the
    interleaving of its m completions with load requests, load completions
    and [BeginPlay], the registration-only calls are made by the unload
    completion that takes the pending-unload counter from 1 to 0; every
    earlier unload completion finds the counter above 1 and makes no call,
    and the counter then stays at 0. *)
Theorem unload_batch_registers_once (ctype : CounterType)
        (layers : MapLayerDecl) (Contains : string -> string -> bool)
        (W : World) (MapLayers : Z) (s0 s1 : GameMode)
        (issued : list Call) (os : list Op) :
  named_levels W ->
  UnLoadMapLayer layers Contains W MapLayers s0 = Ok (tt, s1, issued) ->
  ReadyToRegisterObjects s0 = true ->
  1 <= PendingLevelsToUnLoad s1 <= Int32.max_signed ->
  forallb (fun o => negb (is_unload_request o)) os = true ->
  Z.of_nat (unload_completions os) = PendingLevelsToUnLoad s1 ->
  count is_registration issued = 0%nat
  /\ unload_settles_once ctype layers Contains W os s1.
Proof.
  intros Hnamed Hreq Hready Hc Hos Hn.
  destruct (UnLoadMapLayer_spec layers Contains W Hnamed MapLayers s0)
    as [resolved [_ Hspec]].
  rewrite Hspec in Hreq. apply Ok_run_inj in Hreq. destruct Hreq as [<- <-].
  split; [apply stream_calls_count; reflexivity|].
  apply unload_batch_settles; assumption.
Qed.

Lemma unload_batch_registers_once_witness :
  unload_settles_once CounterInt Demo.layers Demo.Contains Demo.town
    [UnloadDone; RequestLoad 1; UnloadDone; LoadDone]
    {| PendingLevelsToLoad := 0;
       PendingLevelsToUnLoad := 2;
       ReadyToRegisterObjects := true |}.
Proof.
  refine (proj2 (unload_batch_registers_once CounterInt Demo.layers
                   Demo.Contains Demo.town 6 ready_idle
                   {| PendingLevelsToLoad := 0;
                      PendingLevelsToUnLoad := 2;
                      ReadyToRegisterObjects := true |}
                   (stream_calls UnloadStreamLevel
                      ["Town01_Decals"; "Town01_Foliage"] 1)
                   [UnloadDone; RequestLoad 1; UnloadDone; LoadDone]
                   Demo_town_named eq_refl eq_refl _ eq_refl eq_refl)).
  unfold Int32.max_signed. simpl. lia.
Defined.

(** ** Looking levels up by name *)

Section LevelFacts.

Variable Contains : string -> string -> bool.

(** [GetULevelFromName] looks at the first streaming level whose package
    name contains the text and at no other: it returns that level's loaded
    level, which is null, with a warning, when that level is not loaded,
    even if a later level with a matching name is loaded.  With no matching
    level it returns null and logs nothing. *)
Theorem GetULevelFromName_first_match (Levels : list ULevelStreaming)
        (LevelName : string) :
  GetULevelFromName Contains Levels LevelName
  = match filter (named_by Contains LevelName) Levels with
    | [] => (None, [])
    | Level :: _ =>
        (LoadedLevel Level,
         if is_loaded Level then [] else [NotLoaded LevelName])
    end.
Proof.
  induction Levels as [|Level rest IH]; cbn [GetULevelFromName filter].
  - reflexivity.
  - unfold named_by at 1.
    destruct (Contains (WorldAssetPackageFName Level) LevelName).
    + unfold is_loaded. destruct (LoadedLevel Level); reflexivity.
    + exact IH.
Qed.

Lemma collect_actors_loaded (InLevelName : string) :
  forall (Levels : list ULevelStreaming) (OutActors : list AActor),
    all_named_loaded Contains InLevelName Levels = true ->
    collect_actors Contains Levels InLevelName OutActors
    = (map (fun Level =>
              ActorLevel (WorldAssetPackageFName Level) InLevelName) Levels,
       Some (OutActors
               ++ flat_map actors_of
                    (filter (named_by Contains InLevelName) Levels))).
Proof.
  unfold all_named_loaded.
  induction Levels as [|Level rest IH]; intros OutActors Hall.
  - cbn. rewrite app_nil_r. reflexivity.
  - cbn [forallb] in Hall. apply andb_true_iff in Hall.
    destruct Hall as [Hhd Htl].
    cbn [collect_actors filter map]. unfold named_by in *.
    destruct (Contains (WorldAssetPackageFName Level) InLevelName).
    + cbn [negb orb] in Hhd. unfold is_loaded in Hhd.
      cbn [flat_map]. unfold actors_of at 1.
      destruct (LoadedLevel Level) as [L|]; [|discriminate].
      rewrite IH by exact Htl. rewrite <- app_assoc. reflexivity.
    + rewrite IH by exact Htl. reflexivity.
Qed.

Lemma collect_actors_unloaded (InLevelName : string) :
  forall (Levels : list ULevelStreaming) (OutActors : list AActor),
    all_named_loaded Contains InLevelName Levels = false ->
    snd (collect_actors Contains Levels InLevelName OutActors) = None
    /\ (List.length
          (fst (collect_actors Contains Levels InLevelName OutActors))
        <= List.length Levels)%nat.
Proof.
  unfold all_named_loaded.
  induction Levels as [|Level rest IH]; intros OutActors Hall.
  - discriminate.
  - cbn [forallb] in Hall. cbn [collect_actors]. unfold named_by in *.
    destruct (Contains (WorldAssetPackageFName Level) InLevelName).
    + unfold is_loaded in Hall.
      destruct (LoadedLevel Level) as [L|].
      * cbn [negb orb andb] in Hall.
        destruct (IH (OutActors ++ Actors L) Hall) as [Hs Hl].
        destruct (collect_actors Contains rest InLevelName
                    (OutActors ++ Actors L)) as [log out].
        cbn [fst snd List.length] in *. split; [exact Hs | lia].
      * cbn [fst snd List.length]. split; [reflexivity | lia].
    + cbn [negb orb andb] in Hall.
      destruct (IH OutActors Hall) as [Hs Hl].
      destruct (collect_actors Contains rest InLevelName OutActors)
        as [log out].
      cbn [fst snd List.length] in *. split; [exact Hs | lia].
Qed.

(** [GetAllActorsOfLevel] returns the actors of every streaming level whose
    package name contains the text, level after level, and logs one line
    per streaming level, provided each of those levels is loaded.  If one of
    them is not, the function dereferences its null loaded level and
    returns nothing. *)
Theorem GetAllActorsOfLevel_needs_loaded_levels
        (StreamingLevels : list ULevelStreaming) (InLevelName : string) :
  (all_named_loaded Contains InLevelName StreamingLevels = true ->
   GetAllActorsOfLevel Contains StreamingLevels InLevelName
   = (map (fun Level =>
             ActorLevel (WorldAssetPackageFName Level) InLevelName)
          StreamingLevels,
      Some (flat_map actors_of
              (filter (named_by Contains InLevelName) StreamingLevels))))
  /\ (all_named_loaded Contains InLevelName StreamingLevels = false ->
      snd (GetAllActorsOfLevel Contains StreamingLevels InLevelName) = None).
Proof.
  unfold GetAllActorsOfLevel. split; intros Hall.
  - rewrite collect_actors_loaded by exact Hall. reflexivity.
  - apply collect_actors_unloaded. exact Hall.
Qed.

Lemma GetULevelFromName_found (Levels : list ULevelStreaming)
      (LevelName : string) (Level : ULevel) (warnings : list LogLine) :
  GetULevelFromName Contains Levels LevelName = (Some Level, warnings) ->
  warnings = []
  /\ exists first rest,
       filter (named_by Contains LevelName) Levels = first :: rest
       /\ LoadedLevel first = Some Level.
Proof.
  induction Levels as [|candidate others IH]; cbn [GetULevelFromName filter].
  - discriminate.
  - unfold named_by at 1.
    destruct (Contains (WorldAssetPackageFName candidate) LevelName).
    + intros Hfound. destruct (LoadedLevel candidate) as [L|] eqn:HL.
      * split; [congruence|]. exists candidate, (filter (named_by Contains LevelName) others).
        split; [reflexivity|]. congruence.
      * discriminate.
    + exact IH.
Qed.

(** The two queries agree: when [GetULevelFromName] finds a loaded level
    and [GetAllActorsOfLevel] returns for the same text, the actors of that
    level come first in the list returned. *)
Theorem actors_of_named_level_come_first
        (Levels : list ULevelStreaming) (name : string)
        (Level : ULevel) (warnings lines : list LogLine)
        (OutActors : list AActor) :
  GetULevelFromName Contains Levels name = (Some Level, warnings) ->
  GetAllActorsOfLevel Contains Levels name = (lines, Some OutActors) ->
  warnings = []
  /\ exists others, OutActors = Actors Level ++ others.
Proof.
  intros Hfind Hall.
  destruct (GetULevelFromName_found Levels name Level warnings Hfind)
    as [Hw [first [rest [Hfilter Hfirst]]]].
  unfold GetAllActorsOfLevel in Hall.
  destruct (all_named_loaded Contains name Levels) eqn:Hloaded.
  - rewrite collect_actors_loaded in Hall by exact Hloaded.
    rewrite Hfilter in Hall. cbn [app flat_map] in Hall.
    unfold actors_of at 1 in Hall. rewrite Hfirst in Hall.
    split; [exact Hw|].
    exists (flat_map actors_of rest). congruence.
  - destruct (collect_actors_unloaded name Levels [] Hloaded) as [Hnone _].
    rewrite Hall in Hnone. discriminate.
Qed.

End LevelFacts.

Lemma GetAllActorsOfLevel_needs_loaded_levels_witness :
  GetAllActorsOfLevel Demo.Contains demo_levels "Decals"
  = ([ActorLevel "/Game/Carla/Maps/Sublevels/Town01_Decals" "Decals";
      ActorLevel "/Game/Carla/Maps/Sublevels/Town01_Foliage" "Decals";
      ActorLevel "/Game/Carla/Maps/Sublevels/Town01_Decals2" "Decals"],
     Some [11; 12; 31])
  /\ snd (GetAllActorsOfLevel Demo.Contains demo_levels "Town01") = None.
Proof.
  split.
  - exact (proj1 (GetAllActorsOfLevel_needs_loaded_levels Demo.Contains
                    demo_levels "Decals") eq_refl).
  - exact (proj2 (GetAllActorsOfLevel_needs_loaded_levels Demo.Contains
                    demo_levels "Town01") eq_refl).
Defined.

Lemma actors_of_named_level_come_first_witness :
  exists others, [11; 12; 31] = Actors {| Actors := [11; 12] |} ++ others.
Proof.
  exact (proj2 (actors_of_named_level_come_first Demo.Contains demo_levels
                  "Decals" {| Actors := [11; 12] |} []
                  [ActorLevel "/Game/Carla/Maps/Sublevels/Town01_Decals" "Decals";
                   ActorLevel "/Game/Carla/Maps/Sublevels/Town01_Foliage" "Decals";
                   ActorLevel "/Game/Carla/Maps/Sublevels/Town01_Decals2" "Decals"]
                  [11; 12; 31] eq_refl eq_refl)).
Defined.

(** ** Spawning the actor factories *)

Section FactoryFacts.

Variable FactoryClass : Type.
Variable Factory : Type.
Variable SpawnActor : nat -> FactoryClass -> option Factory.

Lemma spawn_each_spec (ActorFactories : list (option FactoryClass)) :
  forall (i : nat) (Instances : list Factory),
    fst (spawn_each SpawnActor i ActorFactories Instances)
    = Instances
        ++ flat_map registered
             (snd (spawn_each SpawnActor i ActorFactories Instances))
    /\ List.length ActorFactories
       = (List.length (filter is_null_class ActorFactories)
          + List.length
              (flat_map registered
                 (snd (spawn_each SpawnActor i ActorFactories Instances)))
          + List.length
              (filter is_error
                 (snd (spawn_each SpawnActor i ActorFactories Instances))))%nat
    /\ Forall (fun e =>
                 match e with
                 | RegisterActorFactory f =>
                     exists k Class,
                       nth_error ActorFactories k = Some (Some Class)
                       /\ SpawnActor (i + k)%nat Class = Some f
                 | LogError line => line = FailedToSpawn
                 end)
              (snd (spawn_each SpawnActor i ActorFactories Instances)).
Proof.
  induction ActorFactories as [|entry rest IH]; intros i Instances.
  - cbn. rewrite app_nil_r. repeat split. constructor.
  - assert (Hshift : forall (P : FactoryEffect Factory -> Prop) l,
               Forall (fun e =>
                         match e with
                         | RegisterActorFactory f =>
                             exists k Class,
                               nth_error rest k = Some (Some Class)
                               /\ SpawnActor (S i + k)%nat Class = Some f
                         | LogError line => line = FailedToSpawn
                         end) l ->
               Forall (fun e =>
                         match e with
                         | RegisterActorFactory f =>
                             exists k Class,
                               nth_error (entry :: rest) k = Some (Some Class)
                               /\ SpawnActor (i + k)%nat Class = Some f
                         | LogError line => line = FailedToSpawn
                         end) l).
    { intros _ l Hl. eapply Forall_impl; [|exact Hl].
      intros [f|line]; [|auto].
      intros [k [Class [Hk Hf]]]. exists (S k), Class.
      split; [exact Hk|]. rewrite <- Hf. f_equal. lia. }
    cbn [spawn_each]. destruct entry as [Class|].
    + destruct (SpawnActor i Class) as [f|] eqn:Hspawn.
      * destruct (IH (S i) (Instances ++ [f])) as [Hinst [Hlen Hall]].
        destruct (spawn_each SpawnActor (S i) rest (Instances ++ [f]))
          as [instances effects].
        cbn [fst snd flat_map registered filter is_null_class is_error
             List.length app] in *.
        split; [rewrite Hinst, <- app_assoc; reflexivity|].
        split; [lia|].
        constructor; [|apply (Hshift (fun _ => True)); exact Hall].
        exists 0%nat, Class. split; [reflexivity|].
        rewrite Nat.add_0_r. exact Hspawn.
      * destruct (IH (S i) Instances) as [Hinst [Hlen Hall]].
        destruct (spawn_each SpawnActor (S i) rest Instances)
          as [instances effects].
        cbn [fst snd flat_map registered filter is_null_class is_error
             List.length app] in *.
        split; [exact Hinst|]. split; [lia|].
        constructor; [reflexivity|].
        apply (Hshift (fun _ => True)); exact Hall.
    + destruct (IH (S i) Instances) as [Hinst [Hlen Hall]].
      cbn [filter is_null_class List.length].
      split; [exact Hinst|]. split; [lia|].
      apply (Hshift (fun _ => True)); exact Hall.
Qed.

(** [SpawnActorFactories] keeps exactly what it registers:
    [ActorFactoryInstances] grows, at its end and in order, by the factories
    registered with the episode and by nothing else.  Every entry of
    [ActorFactories] is accounted for: it is null and skipped silently, or
    its spawn gave the factory that is registered, or its spawn failed and
    one error line is logged. *)
Theorem SpawnActorFactories_keeps_what_it_registers
        (ActorFactories : list (option FactoryClass))
        (ActorFactoryInstances : list Factory) :
  exists instances effects,
    SpawnActorFactories SpawnActor ActorFactories ActorFactoryInstances
    = (instances, effects)
    /\ instances
       = ActorFactoryInstances ++ flat_map registered effects
    /\ List.length ActorFactories
       = (List.length (filter is_null_class ActorFactories)
          + List.length (flat_map registered effects)
          + List.length (filter is_error effects))%nat
    /\ Forall (fun e =>
                 match e with
                 | RegisterActorFactory f =>
                     exists k Class,
                       nth_error ActorFactories k = Some (Some Class)
                       /\ SpawnActor k Class = Some f
                 | LogError line => line = FailedToSpawn
                 end)
              effects.
Proof.
  unfold SpawnActorFactories.
  destruct (spawn_each_spec ActorFactories 0 ActorFactoryInstances)
    as [Hinst [Hlen Hall]].
  destruct (spawn_each SpawnActor 0 ActorFactories ActorFactoryInstances)
    as [instances effects].
  exists instances, effects. cbn [fst snd] in *.
  repeat split; assumption.
Qed.

End FactoryFacts.

(** ** Exploring the roads for signal references *)

Section SignalFacts.

Variable Waypoint : Type.
Variable Reference : Type.
Variable road_id : Waypoint -> Z.
Variable GetInfos : Waypoint -> list Reference.

Lemma explored_iff (id : Z) (ExploredRoads : list Z) :
  existsb (Z.eqb id) ExploredRoads = true <-> In id ExploredRoads.
Proof.
  rewrite existsb_exists. split.
  - intros [x [Hx Heq]]. apply Z.eqb_eq in Heq. subst x. exact Hx.
  - intros Hin. exists id. split; [exact Hin | apply Z.eqb_refl].
Qed.

Lemma explore_spec (waypoints : list Waypoint) :
  forall (ExploredRoads : list Z) (References : list Reference),
    explore road_id GetInfos waypoints ExploredRoads References
    = (rev (map road_id (first_on_road road_id waypoints ExploredRoads))
         ++ ExploredRoads,
       References
         ++ flat_map GetInfos (first_on_road road_id waypoints ExploredRoads)).
Proof.
  induction waypoints as [|w rest IH]; intros ExploredRoads References;
    cbn [explore first_on_road].
  - cbn. rewrite app_nil_r. reflexivity.
  - destruct (existsb (Z.eqb (road_id w)) ExploredRoads).
    + apply IH.
    + rewrite IH. cbn [map rev flat_map].
      rewrite <- !app_assoc. reflexivity.
Qed.

Lemma first_on_road_fresh (waypoints : list Waypoint) :
  forall seen,
    NoDup (map road_id (first_on_road road_id waypoints seen))
    /\ forall w, In w (first_on_road road_id waypoints seen) ->
                 In w waypoints /\ ~ In (road_id w) seen.
Proof.
  induction waypoints as [|w rest IH]; intros seen; cbn [first_on_road].
  - split; [constructor | intros w []].
  - destruct (existsb (Z.eqb (road_id w)) seen) eqn:Hseen.
    + destruct (IH seen) as [Hnd Hin]. split; [exact Hnd|].
      intros w' Hw'. destruct (Hin w' Hw') as [H1 H2].
      split; [right; exact H1 | exact H2].
    + destruct (IH (road_id w :: seen)) as [Hnd Hin].
      assert (Hnew : ~ In (road_id w) seen).
      { intros H. apply explored_iff in H. congruence. }
      split.
      * cbn [map]. constructor; [|exact Hnd].
        intros H. apply in_map_iff in H. destruct H as [w' [Hid Hw']].
        destruct (Hin w' Hw') as [_ Hfresh]. apply Hfresh. left.
        symmetry. exact Hid.
      * intros w' [<-|Hw'].
        -- split; [left; reflexivity | exact Hnew].
        -- destruct (Hin w' Hw') as [H1 H2].
           split; [right; exact H1|]. intros H. apply H2. right. exact H.
Qed.

Lemma first_on_road_covers (waypoints : list Waypoint) :
  forall seen w,
    In w waypoints ->
    In (road_id w) seen
    \/ In (road_id w) (map road_id (first_on_road road_id waypoints seen)).
Proof.
  induction waypoints as [|w0 rest IH]; intros seen w Hw; [destruct Hw|].
  cbn [first_on_road].
  destruct (existsb (Z.eqb (road_id w0)) seen) eqn:Hseen.
  - destruct Hw as [<-|Hw].
    + left. apply explored_iff. exact Hseen.
    + apply IH. exact Hw.
  - cbn [map]. destruct Hw as [<-|Hw].
    + right. left. reflexivity.
    + destruct (IH (road_id w0 :: seen) w Hw) as [[Heq|Hin]|Hin].
      * right. left. exact Heq.
      * left. exact Hin.
      * right. right. exact Hin.
Qed.

(** The waypoint loop of [DebugShowSignals] explores every road that has a
    waypoint, and each one once: the references collected are those of a
    selection of the waypoints with pairwise different road ids that covers
    the road id of every waypoint, and the explored set holds exactly those
    ids. *)
Theorem each_road_is_explored_once (waypoints : list Waypoint) :
  exists explored : list Waypoint,
    explore road_id GetInfos waypoints [] []
    = (rev (map road_id explored), flat_map GetInfos explored)
    /\ NoDup (map road_id explored)
    /\ (forall w, In w explored -> In w waypoints)
    /\ (forall w, In w waypoints ->
                  In (road_id w) (map road_id explored)).
Proof.
  exists (first_on_road road_id waypoints []).
  destruct (first_on_road_fresh waypoints []) as [Hnd Hin].
  split; [rewrite explore_spec, app_nil_r; reflexivity|].
  split; [exact Hnd|]. split.
  - intros w Hw. apply (Hin w Hw).
  - intros w Hw.
    destruct (first_on_road_covers waypoints [] w Hw) as [[]|H]. exact H.
Qed.

End SignalFacts.

(** ** Completions of opposite directions commute *)

(** A load completion and an unload completion arriving together may be
    handled in either order: the final state is the same, and each callback
    makes the same calls whichever comes first, so only the order of the
    two groups of calls differs. *)
Theorem opposite_completions_commute (ctype : CounterType)
        (layers : MapLayerDecl) (Contains : string -> string -> bool)
        (W : World) (s : GameMode) :
  exists s' s1 s2 by_load by_unload,
    OnLoadStreamLevel ctype s = Ok (tt, s1, by_load)
    /\ OnUnloadStreamLevel ctype s = Ok (tt, s2, by_unload)
    /\ perform_all ctype layers Contains W [LoadDone; UnloadDone] s
       = Ok (tt, s', by_load ++ by_unload)
    /\ perform_all ctype layers Contains W [UnloadDone; LoadDone] s
       = Ok (tt, s', by_unload ++ by_load).
Proof.
  pose proof (OnLoadStreamLevel_spec ctype s) as Hl.
  pose proof (OnUnloadStreamLevel_spec ctype s) as Hu.
  pose proof (OnUnloadStreamLevel_spec ctype
                (set_PendingLevelsToLoad
                   (decrement ctype (PendingLevelsToLoad s)) s)) as Hlu.
  pose proof (OnLoadStreamLevel_spec ctype
                (set_PendingLevelsToUnLoad
                   (decrement ctype (PendingLevelsToUnLoad s)) s)) as Hul.
  cbn [set_PendingLevelsToLoad set_PendingLevelsToUnLoad PendingLevelsToLoad
       PendingLevelsToUnLoad ReadyToRegisterObjects] in Hlu, Hul.
  exists (set_PendingLevelsToUnLoad (decrement ctype (PendingLevelsToUnLoad s))
            (set_PendingLevelsToLoad
               (decrement ctype (PendingLevelsToLoad s)) s)).
  do 4 eexists. split; [exact Hl|]. split; [exact Hu|]. split.
  - eapply perform_all_cons; [exact Hl|].
    apply perform_all_one. exact Hlu.
  - eapply perform_all_cons; [exact Hu|].
    apply perform_all_one. exact Hul.
Qed.
